(** * mcp-server-langfuse: the TTL cache, the cache registry and the
      retrying API client

    A shallow embedding of [src/lib/cache.ts] and
    [src/lib/langfuse-client.ts] (with the error classes and option
    records of [src/types/index.ts]), and the properties of the
    specification that concern them.

    Conventions of the embedding.
    - A JavaScript [number] is an integer ([Z]) or [NaN]; fractions and
      infinities are outside the model.  Where the source can only see an
      integer (an HTTP status, [Date.now()], a retry counter) the type is
      [Z] or [nat] directly.
    - [Date.now()] is an explicit argument [now] (epoch milliseconds).
    - A [Map<string, V>] is a [gmap string V]; iteration order plays no role
      in any operation modelled here.
    - Objects with identity (the [Cache] instances handed out by the
      registry) live in a heap indexed by locations.
    - The network and the timers are a scripted world: the n-th call of
      [fetch] gets the n-th scripted outcome, and every [fetch] and every
      back-off sleep is logged. *)

From Stdlib Require Import ZArith QArith Ascii String.
From stdpp Require Import gmap strings list fin_maps.
From Equations Require Import Equations.

Local Open Scope string_scope.
Local Open Scope Z_scope.

(** ** JavaScript primitives used by the sources *)

Module JS.

Inductive number : Type :=
| NaN
| Num (z : Z).

#[global] Instance number_eq_dec : EqDecision number.
Proof. solve_decision. Defined.

(** [x || d] for an optional numeric field [x] and a numeric default:
    [undefined], [0] and [NaN] are falsy. *)
Definition num_or (x : option number) (d : Z) : Z :=
  match x with
  | Some (Num z) => if z =? 0 then d else z
  | Some NaN => d
  | None => d
  end.

(** [x || d] for an optional string ([undefined], [null] and the empty
    string are falsy). *)
Definition str_or (x : option string) (d : string) : string :=
  match x with
  | Some "" => d
  | Some s => s
  | None => d
  end.

(** [!s] for a string. *)
Definition str_falsy (s : string) : bool :=
  match s with
  | "" => true
  | _ => false
  end.

(** *** [parseInt(string)] with no radix argument

    ECMAScript: strip leading white space, read an optional sign, strip
    a [0x]/[0X] prefix (radix 16, else radix 10), read the longest
    prefix of digits; no digit at all gives [NaN].  The result here is
    the mathematical integer (doubles round beyond 2^53, and [-0] is
    [0]). *)

Definition code (c : ascii) : Z := Z.of_nat (nat_of_ascii c).

Definition is_white_space (c : ascii) : bool :=
  let n := code c in
  ((9 <=? n) && (n <=? 13)) || (n =? 32) || (n =? 160).

Fixpoint trim_start (s : string) : string :=
  match s with
  | String c s' => if is_white_space c then trim_start s' else s
  | EmptyString => s
  end.

Definition digit_value (radix : Z) (c : ascii) : option Z :=
  let n := code c in
  let v :=
    if (48 <=? n) && (n <=? 57) then Some (n - 48)
    else if (97 <=? n) && (n <=? 122) then Some (n - 87)
    else if (65 <=? n) && (n <=? 90) then Some (n - 55)
    else None in
  match v with
  | Some d => if d <? radix then Some d else None
  | None => None
  end.

Fixpoint read_digits (radix : Z) (s : string) (acc : option Z) : option Z :=
  match s with
  | String c s' =>
      match digit_value radix c with
      | Some d => read_digits radix s' (Some (radix * default 0 acc + d))
      | None => acc
      end
  | EmptyString => acc
  end.

Definition strip_sign (s : string) : Z * string :=
  match s with
  | String "-" r => (-1, r)
  | String "+" r => (1, r)
  | _ => (1, s)
  end.

Definition strip_hex_prefix (s : string) : Z * string :=
  match s with
  | String "0" (String "x" r) => (16, r)
  | String "0" (String "X" r) => (16, r)
  | _ => (10, s)
  end.

Definition parseInt (s : string) : number :=
  let '(sign, s1) := strip_sign (trim_start s) in
  let '(radix, s2) := strip_hex_prefix s1 in
  match read_digits radix s2 None with
  | Some m => Num (sign * m)
  | None => NaN
  end.

(** How a call into the runtime ends: normally, by throwing an error of
    the given name, or in a way this development does not model. *)
Inductive run (A : Type) : Type :=
| Ok (a : A)
| Raise (name : string)
| NotModelled.
Arguments Ok {A} _.
Arguments Raise {A} _.
Arguments NotModelled {A}.

End JS.

(** [ToBoolean] on optional values, as in [if (params.name)] and
    [if (params.page)]. *)
Module JSTruthy.

Definition of_string (x : option string) : bool :=
  match x with
  | Some s => negb (JS.str_falsy s)
  | None => false
  end.

Definition of_number (x : option JS.number) : bool :=
  match x with
  | Some (JS.Num z) => negb (z =? 0)
  | Some JS.NaN => false
  | None => false
  end.

End JSTruthy.

(** ** [src/types/index.ts]: configuration, parameters and error classes *)

Module Types.

Record LangfuseConfig : Type := mkConfig {
  publicKey : string;
  secretKey : string;
  baseUrl : option string;
  requestTimeout : option JS.number;
  maxRetries : option JS.number
}.

Record ChatMessage : Type := mkMessage {
  role : string;
  content : string
}.

(** The run-time shape of [CreatePromptParams.prompt]: a string, an
    array, or any other value. *)
Inductive prompt_value : Type :=
| PString (s : string)
| PArray (messages : list ChatMessage)
| POther.

Definition isArray (v : prompt_value) : bool :=
  match v with PArray _ => true | _ => false end.

Definition typeof_string (v : prompt_value) : bool :=
  match v with PString _ => true | _ => false end.

Record PromptConfig : Type := mkPromptConfig {
  model : option string;
  temperature : option JS.number;
  maxTokens : option JS.number;
  topP : option JS.number;
  frequencyPenalty : option JS.number;
  presencePenalty : option JS.number;
  stopSequences : option (list string)
}.

Record CreatePromptParams : Type := mkCreate {
  name : string;
  type : string;
  prompt : prompt_value;
  config : option PromptConfig;
  labels : option (list string);
  tags : option (list string);
  commitMessage : option string
}.

(** The error classes, and [Error] for every other error object (a
    plain [Error], a [DOMException], a [TypeError], ...), which only has
    a name and a message. *)
Inductive error (Json : Type) : Type :=
| APIError (status : Z) (message : string) (details : option (Json + string))
| ValidationError (field constraint : string)
| AuthenticationError (message : string)
| RateLimitError (retryAfter : JS.number) (message : string)
| Error (name message : string).
Arguments APIError {Json} _ _ _.
Arguments ValidationError {Json} _ _.
Arguments AuthenticationError {Json} _.
Arguments RateLimitError {Json} _ _.
Arguments Error {Json} _ _.

(** [error.name], as set by each constructor. *)
Definition error_name {Json} (e : error Json) : string :=
  match e with
  | APIError _ _ _ => "APIError"
  | ValidationError _ _ => "ValidationError"
  | AuthenticationError _ => "AuthenticationError"
  | RateLimitError _ _ => "RateLimitError"
  | Error name _ => name
  end.

(** [error instanceof APIError && error.status >= 500] *)
Definition is_server_error {Json} (e : error Json) : bool :=
  match e with
  | APIError status _ _ => status >=? 500
  | _ => false
  end.

(** The default messages of the constructors. *)
Definition authentication_failed {Json} : error Json :=
  AuthenticationError "Authentication failed".

Definition rate_limit_exceeded {Json} (retryAfter : JS.number) : error Json :=
  RateLimitError retryAfter "Rate limit exceeded".

(** Cache types *)

Record CacheEntry (T : Type) : Type := mkEntry {
  data : T;
  expiresAt : Z
}.
Arguments mkEntry {T} _ _.
Arguments data {T} _.
Arguments expiresAt {T} _.

Record CacheOptions : Type := mkOptions {
  ttl : option JS.number;
  keyPrefix : option string
}.

(** The default argument [options = {}]. *)
Definition no_options : CacheOptions :=
  {| ttl := None; keyPrefix := None |}.

End Types.

(** ** The [RegExp] objects of the runtime, as far as the cache needs them

    [invalidatePattern] calls [new RegExp(pattern)] and [regex.test(key)].
    The engine is an interface; [Fragment] below implements the part of
    the ECMAScript pattern language made of literal characters, [.],
    escaped syntax characters and the quantifiers [*], [+], [?] (greedy or
    lazy), and answers [NotModelled] on everything else. *)

Module RegExp.

Class Engine : Type := {
  regex : Type;
  (** [new RegExp(pattern)], which throws [SyntaxError] on a malformed
      pattern *)
  compile : string -> JS.run regex;
  (** [regex.test(s)] for a regex without flags: is there a match
      anywhere in [s]? *)
  test : regex -> string -> bool
}.

Module Fragment.

Inductive atom : Type :=
| AChar (c : ascii)
| ADot.

Inductive quantifier : Type :=
| One
| ZeroOrOne
| ZeroOrMore
| OneOrMore.

Definition term : Type := atom * quantifier.

Inductive token : Type :=
| TChar (c : ascii)
| TDot
| TStar
| TPlus
| TQuest
| TOther
| TDangling.

(** SyntaxCharacter :: one of [^ $ \ . * + ? ( ) [ ] { } |] *)
Definition is_syntax_char (c : ascii) : bool :=
  bool_decide (c ∈ ["^"; "$"; "\"; "."; "*"; "+"; "?"; "("; ")"; "[";
                    "]"; "{"; "}"; "|"]%char).

Definition token_of_char (c : ascii) : token :=
  if bool_decide (c = "."%char) then TDot
  else if bool_decide (c = "*"%char) then TStar
  else if bool_decide (c = "+"%char) then TPlus
  else if bool_decide (c = "?"%char) then TQuest
  else if is_syntax_char c then TOther
  else TChar c.

(** A backslash followed by a syntax character is that character; any
    other escape is left to the full engine; a backslash at the end of
    the pattern is an error. *)
Fixpoint tokens (s : string) : list token :=
  match s with
  | EmptyString => []
  | String c rest =>
      if bool_decide (c = "\"%char) then
        match rest with
        | EmptyString => [TDangling]
        | String d rest' =>
            (if is_syntax_char d then TChar d else TOther) :: tokens rest'
        end
      else token_of_char c :: tokens rest
  end.

Definition quantifier_of (t : token) : option quantifier :=
  match t with
  | TStar => Some ZeroOrMore
  | TPlus => Some OneOrMore
  | TQuest => Some ZeroOrOne
  | _ => None
  end.

Definition cons_term (t : term) (r : JS.run (list term)) : JS.run (list term) :=
  match r with
  | JS.Ok p => JS.Ok (t :: p)
  | other => other
  end.

(** Atom, optional quantifier, optional lazy mark [?]; a quantifier
    where an atom is expected is "nothing to repeat". *)
Fixpoint terms (ts : list token) : JS.run (list term) :=
  match ts with
  | [] => JS.Ok []
  | t :: ts1 =>
      let quantified (a : atom) : JS.run (list term) :=
        match ts1 with
        | [] => JS.Ok [(a, One)]
        | q :: ts2 =>
            match quantifier_of q with
            | None => cons_term (a, One) (terms ts1)
            | Some qu =>
                match ts2 with
                | TQuest :: ts3 => cons_term (a, qu) (terms ts3)
                | _ => cons_term (a, qu) (terms ts2)
                end
            end
        end in
      match t with
      | TChar c => quantified (AChar c)
      | TDot => quantified ADot
      | TStar | TPlus | TQuest | TDangling => JS.Raise "SyntaxError"
      | TOther => JS.NotModelled
      end
  end.

Definition parse (pattern : string) : JS.run (list term) :=
  terms (tokens pattern).

(** [.] matches any character but a line terminator. *)
Definition atom_matches (a : atom) (c : ascii) : bool :=
  match a with
  | AChar d => bool_decide (c = d)
  | ADot => negb (bool_decide (c = "010"%char) || bool_decide (c = "013"%char))
  end.

(** Does the sequence of terms match a prefix of [s]?  Greedy and lazy
    quantifiers accept the same strings. *)
Fixpoint match_here (p : list term) (s : string) : bool :=
  match p with
  | [] => true
  | (a, q) :: p' =>
      let one (s : string) : bool :=
        match s with
        | String c s' => atom_matches a c && match_here p' s'
        | EmptyString => false
        end in
      let many : string -> bool :=
        fix many (s : string) : bool :=
          match_here p' s ||
          match s with
          | String c s' => atom_matches a c && many s'
          | EmptyString => false
          end in
      match q with
      | One => one s
      | ZeroOrOne => one s || match_here p' s
      | ZeroOrMore => many s
      | OneOrMore =>
          match s with
          | String c s' => atom_matches a c && many s'
          | EmptyString => false
          end
      end
  end.

(** A match may start at any index. *)
Fixpoint search (p : list term) (s : string) : bool :=
  match_here p s ||
  match s with
  | String _ s' => search p s'
  | EmptyString => false
  end.

#[global] Instance engine : Engine := {|
  regex := list term;
  compile := parse;
  test := search
|}.

End Fragment.

(** [key] contains [p] as a contiguous substring. *)
Definition contains (key p : string) : Prop :=
  exists l r : string, key = l +:+ p +:+ r.

(** A pattern without any syntax character. *)
Fixpoint literal (p : string) : bool :=
  match p with
  | EmptyString => true
  | String c p' => negb (Fragment.is_syntax_char c) && literal p'
  end.

End RegExp.

(** ** [src/lib/cache.ts]: class [Cache<T>] *)

Module Cache.
Import Types.

Record t (T : Type) : Type := mkCache {
  cache : gmap string (CacheEntry T);
  defaultTTL : Z;
  keyPrefix : string
}.
Arguments mkCache {T} _ _ _.
Arguments cache {T} _.
Arguments defaultTTL {T} _.
Arguments keyPrefix {T} _.

Section Operations.
Context {T : Type}.

(** [constructor(options: CacheOptions = {})] *)
Definition new (options : option CacheOptions) : t T :=
  let options := default no_options options in
  {| cache := ∅;
     defaultTTL := JS.num_or (Types.ttl options) 300;
     keyPrefix := JS.str_or (Types.keyPrefix options) "" |}.

Definition fullKey (c : t T) (key : string) : string :=
  keyPrefix c +:+ key.

Definition with_cache (c : t T) (m : gmap string (CacheEntry T)) : t T :=
  {| cache := m; defaultTTL := defaultTTL c; keyPrefix := keyPrefix c |}.

(** [get(key)]: the returned value ([None] is [null]) and the cache
    after the lazy removal. *)
Definition get (now : Z) (key : string) (c : t T) : option T * t T :=
  let fullKey := fullKey c key in
  match cache c !! fullKey with
  | None => (None, c)
  | Some entry =>
      if now >? expiresAt entry
      then (None, with_cache c (base.delete fullKey (cache c)))
      else (Some (data entry), c)
  end.

(** [set(key, value, ttl?)] *)
Definition set (now : Z) (key : string) (value : T)
    (ttl : option JS.number) (c : t T) : t T :=
  let fullKey := fullKey c key in
  let expiresAt := now + JS.num_or ttl (defaultTTL c) * 1000 in
  with_cache c (<[fullKey := mkEntry value expiresAt]> (cache c)).

(** [delete(key)] *)
Definition delete (key : string) (c : t T) : bool * t T :=
  let fullKey := fullKey c key in
  (bool_decide (is_Some (cache c !! fullKey)),
   with_cache c (base.delete fullKey (cache c))).

(** [clear()] *)
Definition clear (c : t T) : t T := with_cache c ∅.

(** [cleanup()]: the loop over [this.cache.entries()], deleting as it
    goes. *)
Definition cleanup_step (now : Z) (m : gmap string (CacheEntry T))
    (ke : string * CacheEntry T) : gmap string (CacheEntry T) :=
  if now >? expiresAt ke.2 then base.delete ke.1 m else m.

Definition cleanup (now : Z) (c : t T) : t T :=
  with_cache c (foldl (cleanup_step now) (cache c) (map_to_list (cache c))).

(** [size()] *)
Definition size (c : t T) : nat := base.size (cache c).

(** [invalidatePattern(pattern)]: the constructor of [RegExp] runs
    first, then the loop over [this.cache.keys()]. *)
Definition invalidate_step `{RegExp.Engine} (r : RegExp.regex)
    (m : gmap string (CacheEntry T)) (key : string)
    : gmap string (CacheEntry T) :=
  if RegExp.test r key then base.delete key m else m.

Definition invalidatePattern `{RegExp.Engine} (pattern : string)
    (c : t T) : JS.run (t T) :=
  match RegExp.compile pattern with
  | JS.Ok r =>
      JS.Ok (with_cache c
        (foldl (invalidate_step r) (cache c) (map_to_list (cache c)).*1))
  | JS.Raise e => JS.Raise e
  | JS.NotModelled => JS.NotModelled
  end.

End Operations.

End Cache.

(** ** [src/lib/cache.ts]: class [CacheManager]

    The [Cache] objects are heap-allocated; the manager's [caches] map
    holds references to them, and a reference is what [getCache] returns,
    so that two results can be compared for identity. *)

Module CacheManager.

Definition loc : Type := nat.

Record state (T : Type) : Type := mkState {
  heap : gmap loc (Cache.t T);
  caches : gmap string loc
}.
Arguments mkState {T} _ _.
Arguments heap {T} _.
Arguments caches {T} _.

Section Operations.
Context {T : Type}.

(** The [private constructor()]: no cache registered.  (The interval
    timer it starts is the [sweep] below, fired by the environment.) *)
Definition new : state T := {| heap := ∅; caches := ∅ |}.

(** [new Cache<T>(options)]: a fresh object on the heap. *)
Definition alloc (c : Cache.t T) (h : gmap loc (Cache.t T))
    : loc * gmap loc (Cache.t T) :=
  let l := fresh (dom h) in (l, <[l := c]> h).

(** [getCache(name, options?)]: the reference found by the final
    [this.caches.get(name)] ([None] would be [undefined]) and the new
    state. *)
Definition getCache (name : string) (options : option Types.CacheOptions)
    (st : state T) : option loc * state T :=
  let st1 :=
    if bool_decide (is_Some (caches st !! name)) then st
    else
      let '(l, h) := alloc (Cache.new options) (heap st) in
      {| heap := h; caches := <[name := l]> (caches st) |} in
  (caches st1 !! name, st1).

(** A method that mutates the object behind each registered reference. *)
Definition for_each_cache (f : Cache.t T -> Cache.t T) (st : state T)
    : state T :=
  {| heap := foldl (fun h nl => alter f nl.2 h) (heap st)
               (map_to_list (caches st));
     caches := caches st |}.

(** [clearAll()] *)
Definition clearAll (st : state T) : state T :=
  for_each_cache Cache.clear st.

(** The callback of [setInterval(..., 60000)]. *)
Definition sweep (now : Z) (st : state T) : state T :=
  for_each_cache (Cache.cleanup now) st.

(** What a program can do with a manager and the caches it hands out:
    look a cache up, clear all, let the timer fire, or call a method on
    a cache object it holds a reference to. *)
Inductive action : Type :=
| GetCache (name : string) (options : option Types.CacheOptions)
| ClearAll
| Sweep (now : Z)
| Method (l : loc) (f : Cache.t T -> Cache.t T).

Definition step (st : state T) (a : action) : state T :=
  match a with
  | GetCache name options => (getCache name options st).2
  | ClearAll => clearAll st
  | Sweep now => sweep now st
  | Method l f =>
      {| heap := alter f l (heap st); caches := caches st |}
  end.

Definition run (acts : list action) (st : state T) : state T :=
  foldl step st acts.

End Operations.

End CacheManager.

(** ** [src/lib/langfuse-client.ts]: class [LangfuseAPIClient] *)

Module LangfuseAPIClient.
Import Types.

Record t : Type := mkClient {
  auth : string;
  baseUrl : string;
  requestTimeout : Z;
  maxRetries : Z
}.

(** What a call returns to its caller. *)
Inductive outcome (Json : Type) : Type :=
| Returned (value : Json)
| Threw (e : error Json).
Arguments Returned {Json} _.
Arguments Threw {Json} _.

(** A response, as far as [request] looks at it: the status, the
    [Retry-After] header, the body text and what [JSON.parse] makes of the
    body ([None]: not JSON). *)
Record response (Json : Type) : Type := mkResponse {
  status : Z;
  retryAfterHeader : option string;
  text : string;
  json : option Json
}.
Arguments mkResponse {Json} _ _ _ _.
Arguments status {Json} _.
Arguments retryAfterHeader {Json} _.
Arguments text {Json} _.
Arguments json {Json} _.

(** [response.ok] *)
Definition ok {Json} (r : response Json) : bool :=
  (200 <=? status r) && (status r <=? 299).

(** How one call of [fetch] ends: the promise rejects with an error of
    some name (["AbortError"] when the timeout aborted it), or a response
    arrives. *)
Inductive fetched (Json : Type) : Type :=
| Rejected (name message : string)
| Responded (r : response Json).
Arguments Rejected {Json} _ _.
Arguments Responded {Json} _.

Inductive request_data : Type :=
| CreateBody (params : CreatePromptParams)
| LabelsBody (labels : list string).

Inductive event : Type :=
| Fetch (method url authorization : string) (body : option request_data)
| Sleep (ms : Z).

(** The scripted world: outcome of the n-th [fetch], number of calls of
    [fetch] so far, and the log. *)
Record world (Json : Type) : Type := mkWorld {
  script : nat -> fetched Json;
  calls : nat;
  log : list event
}.
Arguments mkWorld {Json} _ _ _.
Arguments script {Json} _.
Arguments calls {Json} _.
Arguments log {Json} _.

Section Client.
Context {Json : Type}.
(** [Buffer.from(s).toString('base64')] *)
Variable base64 : string -> string.

(** [constructor(config)] *)
Definition new (config : LangfuseConfig) : error Json + t :=
  if JS.str_falsy (publicKey config) || JS.str_falsy (secretKey config)
  then inl (AuthenticationError "Missing Langfuse API credentials")
  else inr {|
    auth := base64 (publicKey config +:+ ":" +:+ secretKey config);
    baseUrl := JS.str_or (Types.baseUrl config) "https://cloud.langfuse.com";
    requestTimeout := JS.num_or (Types.requestTimeout config) 30000;
    maxRetries := JS.num_or (Types.maxRetries config) 3 |}.

(** [await fetch(url, {...})] *)
Definition fetch (cl : t) (method path : string)
    (data : option request_data) (w : world Json)
    : fetched Json * world Json :=
  (script w (calls w),
   {| script := script w;
      calls := S (calls w);
      log := log w ++
        [Fetch method (baseUrl cl +:+ "/api/public/v2" +:+ path)
           ("Basic " +:+ auth cl) data] |}).

(** [await new Promise(resolve => setTimeout(resolve, delay))] *)
Definition sleep (delay : Z) (w : world Json) : world Json :=
  {| script := script w; calls := calls w; log := log w ++ [Sleep delay] |}.

(** The body of the [try] block once [fetch] has settled: either the
    function returns ([inl]; a rejection of the returned
    [response.json()] is not seen by the [catch]), or an error reaches
    the [catch] block ([inr]). *)
Definition try_block (f : fetched Json) : outcome Json + error Json :=
  match f with
  | Rejected name message => inr (Error name message)
  | Responded r =>
      if status r =? 429 then
        let retryAfter :=
          JS.parseInt (JS.str_or (retryAfterHeader r) "60") in
        inr (rate_limit_exceeded retryAfter)
      else if (status r =? 401) || (status r =? 403) then
        inr authentication_failed
      else if negb (ok r) then
        let errorDetails :=
          match json r with
          | Some parsed => inl parsed
          | None => inr (text r)
          end in
        inr (APIError (status r) "API request failed" (Some errorDetails))
      else
        inl (match json r with
             | Some value => Returned value
             | None => Threw (Error "SyntaxError" "Unexpected token")
             end)
  end.

(** The condition of the retry in the [catch] block. *)
Definition should_retry (cl : t) (retryCount : nat) (e : error Json)
    : bool :=
  (Z.of_nat retryCount <? maxRetries cl)
  && (String.eqb (error_name e) "FetchError" || is_server_error e).

(** [delay = Math.pow(2, retryCount) * 1000] *)
Definition backoff (retryCount : nat) : Z := 2 ^ Z.of_nat retryCount * 1000.

(** Case analysis that remembers which case was taken. *)
Definition inspect {A : Type} (x : A) : {y : A | x = y} :=
  exist _ x eq_refl.

(** [request(method, path, data?, retryCount = 0)] *)
Equations? request (cl : t) (method path : string)
    (data : option request_data) (retryCount : nat) (w : world Json)
    : outcome Json * world Json
    by wf (Z.to_nat (maxRetries cl - Z.of_nat retryCount)) lt :=
  request cl method path data retryCount w
    with fetch cl method path data w := {
    | (f, w1) with try_block f := {
      | inl result => (result, w1)
      | inr e with String.eqb (error_name e) "AbortError" := {
        | true => (Threw (APIError 408 "Request timeout" None), w1)
        | false with inspect (should_retry cl retryCount e) := {
          | exist _ true retry =>
              request cl method path data (S retryCount)
                (sleep (backoff retryCount) w1)
          | exist _ false no_retry => (Threw e, w1)
          }
        }
      }
    }.
Proof.
  unfold should_retry in retry.
  apply andb_prop in retry as [Hlt _].
  apply Z.ltb_lt in Hlt. lia.
Qed.

(** [createPrompt(params)] *)
Definition createPrompt (cl : t) (params : CreatePromptParams)
    (w : world Json) : outcome Json * world Json :=
  if String.eqb (type params) "chat" && negb (isArray (prompt params))
  then (Threw (Error "Error" "Chat prompts must be an array of messages"), w)
  else if String.eqb (type params) "text"
          && negb (typeof_string (prompt params))
  then (Threw (Error "Error" "Text prompts must be a string"), w)
  else request cl "POST" "/prompts" (Some (CreateBody params)) 0 w.

(** [deletePrompt(_params)] *)
Definition deletePrompt (cl : t) (w : world Json)
    : outcome Json * world Json :=
  (Threw (APIError 501 "Delete operation not yet supported by Langfuse API"
            None), w).

(** The encoders and printers of the runtime: [encodeURIComponent(s)],
    the decimal string of a number ([String(n)], [n.toString()]) and the
    percent-encoding that [URLSearchParams] applies to a name or a value. *)
Variable encodeURIComponent : string -> string.
Variable number_toString : JS.number -> string.
Variable form_urlencode : string -> string.

(** [queryParams.toString()] for the entries appended so far. *)
Definition URLSearchParams_toString (entries : list (string * string))
    : string :=
  String.concat "&"
    (map (fun entry => form_urlencode entry.1 +:+ "=" +:+ form_urlencode entry.2)
       entries).

(** [if (x) queryParams.append(name, value)] *)
Definition append_if (condition : bool) (name value : string)
    (entries : list (string * string)) : list (string * string) :=
  if condition then entries ++ [(name, value)] else entries.

(** [listPrompts(params)] *)
Definition listPrompts (cl : t) (name label tag : option string)
    (page limit : option JS.number) (w : world Json)
    : outcome Json * world Json :=
  let queryParams := [] in
  let queryParams :=
    append_if (JSTruthy.of_string name) "name" (default "" name) queryParams in
  let queryParams :=
    append_if (JSTruthy.of_string label) "label" (default "" label) queryParams in
  let queryParams :=
    append_if (JSTruthy.of_string tag) "tag" (default "" tag) queryParams in
  let queryParams :=
    append_if (JSTruthy.of_number page) "page"
      (number_toString (default JS.NaN page)) queryParams in
  let queryParams :=
    append_if (JSTruthy.of_number limit) "limit"
      (number_toString (default JS.NaN limit)) queryParams in
  let queryString := URLSearchParams_toString queryParams in
  let path :=
    "/prompts" +:+ (if JS.str_falsy queryString then ""
                    else "?" +:+ queryString) in
  request cl "GET" path None 0 w.

(** [getPrompt(params)] *)
Definition getPrompt (cl : t) (name : string) (version : option JS.number)
    (label : option string) (w : world Json) : outcome Json * world Json :=
  let encodedName := encodeURIComponent name in
  let path := "/prompts/" +:+ encodedName in
  let path :=
    match version with
    | Some version => path +:+ "/versions/" +:+ number_toString version
    | None =>
        if JSTruthy.of_string label
        then path +:+ "?label=" +:+ encodeURIComponent (default "" label)
        else path
    end in
  request cl "GET" path None 0 w.

(** [updatePromptLabels(params)] *)
Definition updatePromptLabels (cl : t) (name : string) (version : JS.number)
    (newLabels : list string) (w : world Json) : outcome Json * world Json :=
  let encodedName := encodeURIComponent name in
  let path :=
    "/prompts/" +:+ encodedName +:+ "/versions/" +:+ number_toString version in
  request cl "PATCH" path (Some (LabelsBody newLabels)) 0 w.

End Client.

End LangfuseAPIClient.


(** * Vocabulary of the properties and sample data *)

(** One step of a loop that deletes the keys of the doomed items. *)
Definition delete_step {V X : Type} (key_of : X -> string) (doomed : X -> bool)
    (m : gmap string V) (x : X) : gmap string V :=
  if doomed x then delete (key_of x) m else m.

(** The entry that survives a clean-up at time [now]. *)
Definition unexpired {T : Type} (now : Z) (o : option (Types.CacheEntry T))
    : option (Types.CacheEntry T) :=
  match o with
  | Some e => if Types.expiresAt e <? now then None else Some e
  | None => None
  end.

(** Logical absence of what is stored under a key: nothing, or an entry
    whose expiry time is strictly before [now]. *)
Definition absent {T : Type} (now : Z) (o : option (Types.CacheEntry T))
    : Prop :=
  o = None \/ exists e, o = Some e /\ Types.expiresAt e < now.

(** The TTL that [set] uses, said without [||]. *)
Definition effective_ttl {T : Type} (ttl : option JS.number) (c : Cache.t T)
    : Z :=
  match ttl with
  | Some (JS.Num z) => if bool_decide (z = 0) then Cache.defaultTTL c else z
  | Some JS.NaN => Cache.defaultTTL c
  | None => Cache.defaultTTL c
  end.

(** A cache with one entry, stored at time 0 with a TTL of one second. *)
Definition one_second_cache : Cache.t string :=
  Cache.set 0 "k" "v" (Some (JS.Num 1)) (Cache.new None).

(** The terms of a pattern that has no syntax character. *)
Fixpoint literal_terms (p : string) : list RegExp.Fragment.term :=
  match p with
  | EmptyString => []
  | String c p' => (RegExp.Fragment.AChar c, RegExp.Fragment.One) :: literal_terms p'
  end.

(** A cache whose only key is the three characters [a+b]. *)
Definition plus_cache : Cache.t string :=
  Cache.set 0 "a+b" "v" None (Cache.new None).

(** Well-formed registry states: every registered reference points to a
    live object, and no object is registered under two names. *)
Definition registry_wf {T : Type} (st : CacheManager.state T) : Prop :=
  (forall n l, CacheManager.caches st !! n = Some l ->
     is_Some (CacheManager.heap st !! l))
  /\ (forall n1 n2 l, CacheManager.caches st !! n1 = Some l ->
        CacheManager.caches st !! n2 = Some l -> n1 = n2).

Section ClientVocabulary.
Import Types LangfuseAPIClient.
Context {Json : Type}.

(** The log entry of one [fetch] issued by [request]. *)
Definition fetch_event (cl : LangfuseAPIClient.t) (method path : string)
    (data : option request_data) : event :=
  Fetch method (baseUrl cl +:+ "/api/public/v2" +:+ path)
    ("Basic " +:+ auth cl) data.

(** The world after [n] more calls of [fetch] and the given further log
    entries. *)
Definition advanced (w : world Json) (n : nat) (entries : list event)
    : world Json :=
  {| script := script w; calls := (calls w + n)%nat; log := log w ++ entries |}.

(** The [APIError] that [request] builds from a failed response. *)
Definition api_failure (r : response Json) : error Json :=
  APIError (status r) "API request failed"
    (Some (match json r with
           | Some parsed => inl parsed
           | None => inr (text r)
           end)).

(** The [n]-th call of [fetch] is answered with a status of 500 or more. *)
Definition server_error_at (w : world Json) (n : nat) : Prop :=
  exists r, script w n = Responded r /\ 500 <= status r.

(** The [n]-th call of [fetch] is answered with a 2xx status and the JSON
    body [value]. *)
Definition success_at (w : world Json) (n : nat) (value : Json) : Prop :=
  exists r, script w n = Responded r /\ ok r = true /\ json r = Some value.

(** The log of [n] failed attempts, the first made with retry counter
    [retryCount]: each attempt is followed by a sleep of
    [2^counter * 1000] milliseconds. *)
Fixpoint retry_log (cl : LangfuseAPIClient.t) (method path : string)
    (data : option request_data) (retryCount n : nat) : list event :=
  match n with
  | O => []
  | S n' =>
      fetch_event cl method path data
      :: Sleep (2 ^ Z.of_nat retryCount * 1000)
      :: retry_log cl method path data (S retryCount) n'
  end.

End ClientVocabulary.

(** Sample clients, responses and worlds. *)
Definition sample_client : LangfuseAPIClient.t :=
  {| LangfuseAPIClient.auth := "cGs6c2s=";
     LangfuseAPIClient.baseUrl := "https://cloud.langfuse.com";
     LangfuseAPIClient.requestTimeout := 30000;
     LangfuseAPIClient.maxRetries := 3 |}.

Definition unavailable : LangfuseAPIClient.response string :=
  LangfuseAPIClient.mkResponse 503 None "Service Unavailable" None.

Definition found : LangfuseAPIClient.response string :=
  LangfuseAPIClient.mkResponse 200 None "{}" (Some "{}").

Definition rate_limited (retryAfter : option string)
    : LangfuseAPIClient.response string :=
  LangfuseAPIClient.mkResponse 429 retryAfter "" None.

Definition fresh_world (script : nat -> LangfuseAPIClient.fetched string)
    : LangfuseAPIClient.world string :=
  {| LangfuseAPIClient.script := script;
     LangfuseAPIClient.calls := 0;
     LangfuseAPIClient.log := [] |}.

(** Every request times out. *)
Definition timing_out : LangfuseAPIClient.world string :=
  fresh_world (fun _ => LangfuseAPIClient.Rejected "AbortError"
                          "This operation was aborted").

(** Two 503 responses, then success. *)
Definition recovering : LangfuseAPIClient.world string :=
  fresh_world (fun n => if (n <? 2)%nat
                        then LangfuseAPIClient.Responded unavailable
                        else LangfuseAPIClient.Responded found).

(** A chat prompt whose content is a string. *)
Definition mismatched_chat : Types.CreatePromptParams :=
  {| Types.name := "greeting";
     Types.type := "chat";
     Types.prompt := Types.PString "Hello";
     Types.config := None;
     Types.labels := None;
     Types.tags := None;
     Types.commitMessage := None |}.

(** A 429 response for ever, with the given [Retry-After] header. *)
Definition throttled (retryAfter : option string)
    : LangfuseAPIClient.world string :=
  fresh_world (fun _ => LangfuseAPIClient.Responded (rate_limited retryAfter)).

(** A configuration that asks for no time-out and no retry. *)
Definition zero_config : Types.LangfuseConfig :=
  {| Types.publicKey := "pk";
     Types.secretKey := "sk";
     Types.baseUrl := None;
     Types.requestTimeout := Some (JS.Num 0);
     Types.maxRetries := Some (JS.Num 0) |}.

(** The cache of the repository's pattern-invalidation test:
    [new Cache({ ttl: 1 })] with three entries set at time 0. *)
Definition tested_cache : Cache.t string :=
  Cache.set 0 "other:v1" "value3" None
    (Cache.set 0 "prompt:v2" "value2" None
       (Cache.set 0 "prompt:v1" "value1" None
          (Cache.new (Some {| Types.ttl := Some (JS.Num 1);
                              Types.keyPrefix := None |})))).

Section RetryVocabulary.
Import Types LangfuseAPIClient.
Context {Json : Type}.

(** An outcome of [fetch] that [request] answers with a retry while the
    budget lasts: a rejection named ["FetchError"], or a response with a
    status of 500 or more. *)
Definition retryable (f : fetched Json) : Prop :=
  (exists message, f = Rejected "FetchError" message)
  \/ (exists r, f = Responded r /\ 500 <= status r).

(** What the caller gets when the attempt that met [f] was the last one. *)
Definition final_outcome (f : fetched Json) : outcome Json :=
  match try_block f with
  | inl result => result
  | inr e => Threw e
  end.

End RetryVocabulary.

(** * More of the code

    The rest of this part embeds the functions of [src/lib/validation.ts]
    and the remaining operations of the client. *)

(** ** More JavaScript primitives *)

Module JSString.

(** [s.length], for strings of code units below 256. *)
Definition length (s : string) : Z := Z.of_nat (String.length s).

(** [s.toLowerCase()] on Latin-1: [A]-[Z] and the capital letters
    U+00C0-U+00DE, but for the sign U+00D7, move up by 32. *)
Definition lower_char (c : ascii) : ascii :=
  let n := JS.code c in
  if ((65 <=? n) && (n <=? 90))
     || ((192 <=? n) && (n <=? 222) && negb (n =? 215))
  then ascii_of_nat (Z.to_nat (n + 32))
  else c.

Fixpoint toLowerCase (s : string) : string :=
  match s with
  | EmptyString => EmptyString
  | String c s' => String (lower_char c) (toLowerCase s')
  end.

(** [s.trim()]: white space and line terminators go from both ends. *)
Fixpoint trim_end (s : string) : string :=
  match s with
  | EmptyString => EmptyString
  | String c s' =>
      match trim_end s' with
      | EmptyString => if JS.is_white_space c then EmptyString
                       else String c EmptyString
      | rest => String c rest
      end
  end.

Definition trim (s : string) : string := trim_end (JS.trim_start s).

(** [/^[...]+$/.test(s)] for a character class: [s] is not empty and all
    its characters are in the class. *)
Fixpoint all_in (class : ascii -> bool) (s : string) : bool :=
  match s with
  | EmptyString => true
  | String c s' => class c && all_in class s'
  end.

Definition one_or_more (class : ascii -> bool) (s : string) : bool :=
  negb (JS.str_falsy s) && all_in class s.

Definition is_letter (c : ascii) : bool :=
  let n := JS.code c in
  ((97 <=? n) && (n <=? 122)) || ((65 <=? n) && (n <=? 90)).

Definition is_digit (c : ascii) : bool :=
  let n := JS.code c in (48 <=? n) && (n <=? 57).

End JSString.

(** ** [src/lib/validation.ts]: the validators *)

Module Validation.
Import Types.

(** A validator returns normally or throws
    [new ValidationError(field, constraint)]. *)
Inductive verdict : Type :=
| Passes
| Throws (field constraint : string).

(** The class [[a-zA-Z0-9_\-/.]] *)
Definition name_char (c : ascii) : bool :=
  JSString.is_letter c || JSString.is_digit c
  || bool_decide (c ∈ ["_"; "-"; "/"; "."]%char).

(** The class [[a-zA-Z0-9_\-]] *)
Definition label_char (c : ascii) : bool :=
  JSString.is_letter c || JSString.is_digit c
  || bool_decide (c ∈ ["_"; "-"]%char).

(** [validatePromptName(name)] *)
Definition validatePromptName (name : string) : verdict :=
  if JS.str_falsy name then
    Throws "name" "Prompt name is required"
  else if JSString.length name =? 0 then
    Throws "name" "Prompt name cannot be empty"
  else if JSString.length name >? 255 then
    Throws "name" "Prompt name cannot exceed 255 characters"
  else if negb (JSString.one_or_more name_char name) then
    Throws "name"
      "Prompt name can only contain letters, numbers, underscores, hyphens, dots, and slashes"
  else Passes.

(** The body of the loop over the messages of a chat prompt. *)
Definition check_message (message : ChatMessage) : verdict :=
  if JS.str_falsy (role message) || JS.str_falsy (content message) then
    Throws "prompt" "Each chat message must have role and content"
  else if negb (bool_decide (role message ∈ ["system"; "user"; "assistant"]))
  then
    Throws "prompt" "Message role must be system, user, or assistant"
  else Passes.

(** A loop that throws at the first item that fails its check. *)
Fixpoint for_each {A : Type} (check : A -> verdict) (items : list A)
    : verdict :=
  match items with
  | [] => Passes
  | item :: rest =>
      match check item with
      | Passes => for_each check rest
      | thrown => thrown
      end
  end.

(** [validatePromptContent(type, content)], on contents whose messages
    have the declared type [ChatMessage] (so that the last test of the
    loop, [typeof message.content !== 'string'], is never true). *)
Definition validatePromptContent (type : string) (content : prompt_value)
    : verdict :=
  if String.eqb type "text" then
    if negb (typeof_string content)
    then Throws "prompt" "Text prompts must be a string"
    else Passes
  else if String.eqb type "chat" then
    match content with
    | PArray messages => for_each check_message messages
    | _ => Throws "prompt" "Chat prompts must be an array of messages"
    end
  else Throws "type" "Prompt type must be text or chat".

(** The body of the loop of [validateLabels]. *)
Definition check_label (label : string) : verdict :=
  if JSString.length label =? 0 then
    Throws "labels" "Label cannot be empty"
  else if JSString.length label >? 50 then
    Throws "labels" "Label cannot exceed 50 characters"
  else if bool_decide (JSString.toLowerCase label ∈ ["latest"; "all"]) then
    Throws "labels"
      ("Label '" +:+ label +:+ "' is reserved and cannot be used")
  else if negb (JSString.one_or_more label_char label) then
    Throws "labels"
      "Labels can only contain letters, numbers, underscores, and hyphens"
  else Passes.

(** [validateLabels(labels)], on an array of strings *)
Definition validateLabels (labels : list string) : verdict :=
  for_each check_label labels.

(** The body of the loop of [validateTags]. *)
Definition check_tag (tag : string) : verdict :=
  if JSString.length tag =? 0 then
    Throws "tags" "Tag cannot be empty"
  else if JSString.length tag >? 50 then
    Throws "tags" "Tag cannot exceed 50 characters"
  else Passes.

(** [validateTags(tags)], on an array of strings *)
Definition validateTags (tags : list string) : verdict :=
  for_each check_tag tags.

End Validation.

(** A name the name validator is meant to accept: 1 to 255 characters
    among letters, digits, [_], [-], [/] and [.]. *)
Definition well_formed_name (name : string) : Prop :=
  1 <= JSString.length name <= 255
  /\ JSString.all_in Validation.name_char name = true.

(** A label the label validator is meant to accept. *)
Definition well_formed_label (label : string) : Prop :=
  1 <= JSString.length label <= 50
  /\ JSString.all_in Validation.label_char label = true
  /\ JSString.toLowerCase label <> "latest"
  /\ JSString.toLowerCase label <> "all".

(** A chat message the content validator is meant to accept. *)
Definition well_formed_message (message : Types.ChatMessage) : Prop :=
  Types.role message ∈ ["system"; "user"; "assistant"]
  /\ Types.content message <> "".

(** The pattern that a prompt name is when it is read as a regular
    expression: every character stands for itself, but the dot, which
    stands for any character. *)
Definition name_atom (c : ascii) : RegExp.Fragment.atom :=
  if bool_decide (c = "."%char) then RegExp.Fragment.ADot
  else RegExp.Fragment.AChar c.

Fixpoint name_terms (name : string) : list RegExp.Fragment.term :=
  match name with
  | EmptyString => []
  | String c rest => (name_atom c, RegExp.Fragment.One) :: name_terms rest
  end.

(** A cache whose only key lacks the dot of the name [a.b]. *)
Definition dotless_cache : Cache.t string :=
  Cache.set 0 "axb" "v" None (Cache.new None).

(** ** [src/lib/validation.ts]: mustache variables

    [extractVariables] and [replaceVariables] walk the successive matches
    of [/\{\{([^}]+)\}\}/g]: two opening braces, the longest run of one or
    more characters other than a closing brace, two closing braces; the
    search for the next match resumes after the previous one.  [scan]
    cuts a text into these matches and the characters between them. *)

Module Template.
Import Types.

(** The longest prefix without a closing brace, and the rest. *)
Fixpoint span_inner (s : string) : string * string :=
  match s with
  | EmptyString => (EmptyString, EmptyString)
  | String c s' =>
      if bool_decide (c = "}"%char) then (EmptyString, s)
      else let '(inner, rest) := span_inner s' in (String c inner, rest)
  end.

(** [s] without its first two characters, when these are [a] and [b]. *)
Definition strip2 (a b : ascii) (s : string) : option string :=
  match s with
  | String x (String y rest) =>
      if bool_decide (x = a) && bool_decide (y = b) then Some rest else None
  | _ => None
  end.

(** A match that starts at the first character: the captured group and
    what follows the match. *)
Definition match_at (s : string) : option (string * string) :=
  match strip2 "{" "{" s with
  | Some s1 =>
      let '(inner, after) := span_inner s1 in
      match inner, strip2 "}" "}" after with
      | String _ _, Some rest => Some (inner, rest)
      | _, _ => None
      end
  | None => None
  end.

Lemma strip2_Some (a b : ascii) (s rest : string) :
  strip2 a b s = Some rest <-> s = String a (String b rest).
Proof.
  unfold strip2. destruct s as [|x [|y s]]; try (split; done).
  destruct (decide (x = a)) as [->|Hx], (decide (y = b)) as [->|Hy].
  - rewrite !bool_decide_eq_true_2 by done. simpl. split; by intros [= ->].
  - rewrite (bool_decide_eq_false_2 (y = b)), andb_false_r by done.
    split; [done|]. by intros [= ? ?].
  - rewrite (bool_decide_eq_false_2 (x = a)) by done.
    split; [done|]. by intros [= ? ?].
  - rewrite (bool_decide_eq_false_2 (x = a)) by done.
    split; [done|]. by intros [= ? ?].
Qed.

Lemma span_inner_append (s : string) :
  (span_inner s).1 +:+ (span_inner s).2 = s.
Proof.
  induction s as [|c s IH]; [done|]. simpl.
  case_bool_decide; [done|].
  destruct (span_inner s) as [inner rest]. simpl in *. by rewrite <- IH.
Qed.

(** A match is the text [{{inner}}], with a non-empty [inner]. *)
Lemma match_at_Some (s inner rest : string) :
  match_at s = Some (inner, rest) ->
  s = "{{" +:+ inner +:+ "}}" +:+ rest /\ inner <> EmptyString.
Proof.
  unfold match_at.
  destruct (strip2 "{" "{" s) as [s1|] eqn:Hopen; [|done].
  apply strip2_Some in Hopen as ->.
  pose proof (span_inner_append s1) as Happ.
  destruct (span_inner s1) as [[|c i] after]; [done|].
  destruct (strip2 "}" "}" after) as [r|] eqn:Hclose; [|done].
  apply strip2_Some in Hclose as ->.
  intros [= <- <-]. split; [|done]. simpl in Happ. by rewrite <- Happ.
Qed.

Lemma length_append (a b : string) :
  String.length (a +:+ b) = (String.length a + String.length b)%nat.
Proof.
  induction a as [|c a IH]; [done|].
  change (S (String.length (a +:+ b)) = S (String.length a + String.length b)).
  by rewrite IH.
Qed.

Lemma match_at_shorter (s inner rest : string) :
  match_at s = Some (inner, rest) ->
  (String.length rest < String.length s)%nat.
Proof.
  intros [-> _]%match_at_Some. rewrite !length_append. simpl. lia.
Qed.

Inductive piece : Type :=
| Char (c : ascii)
| Hole (inner : string).

Definition inspect {A : Type} (x : A) : {y : A | x = y} :=
  exist _ x eq_refl.

Equations? scan (s : string) : list piece by wf (String.length s) lt :=
  scan EmptyString := [];
  scan (String c s') with inspect (match_at (String c s')) := {
    | exist _ (Some (inner, rest)) found => Hole inner :: scan rest
    | exist _ None _ => Char c :: scan s'
    }.
Proof. by apply (match_at_shorter (String c s') inner rest). Qed.

(** The captured groups, trimmed, in the order of the matches. *)
Fixpoint names (pieces : list piece) : list string :=
  match pieces with
  | [] => []
  | Char _ :: rest => names rest
  | Hole inner :: rest => JSString.trim inner :: names rest
  end.

(** [variables.add(x)] on a [Set], kept in insertion order. *)
Definition add (variables : list string) (x : string) : list string :=
  if bool_decide (x ∈ variables) then variables else variables ++ [x].

(** One [while ((match = regex.exec(text)) !== null)] loop. *)
Definition extract_from (variables : list string) (text : string)
    : list string :=
  foldl add variables (names (scan text)).

(** [extractVariables(prompt)] *)
Definition extractVariables (prompt : prompt_value) : list string :=
  match prompt with
  | PString text => extract_from [] text
  | PArray messages =>
      foldl (fun variables message =>
               extract_from variables (content message)) [] messages
  | POther => []
  end.

(** The members that a plain object inherits from [Object.prototype]:
    [name in variables] is true for them as well. *)
Definition inherited : list string :=
  ["constructor"; "__defineGetter__"; "__defineSetter__"; "hasOwnProperty";
   "__lookupGetter__"; "__lookupSetter__"; "isPrototypeOf";
   "propertyIsEnumerable"; "toString"; "valueOf"; "__proto__";
   "toLocaleString"].

(** The callback of [text.replace]: the value of the variable when the
    object has its own entry for the trimmed name, the match itself when
    [trimmedName in variables] is false; an inherited member is not a
    string, and what [replace] makes of it is left out. *)
Definition replacement (variables : gmap string string) (inner : string)
    : JS.run string :=
  let trimmedName := JSString.trim inner in
  match variables !! trimmedName with
  | Some value => JS.Ok value
  | None =>
      if bool_decide (trimmedName ∈ inherited) then JS.NotModelled
      else JS.Ok ("{{" +:+ inner +:+ "}}")
  end.

Definition run_map {A B : Type} (f : A -> B) (r : JS.run A) : JS.run B :=
  match r with
  | JS.Ok a => JS.Ok (f a)
  | JS.Raise e => JS.Raise e
  | JS.NotModelled => JS.NotModelled
  end.

Definition run_bind {A B : Type} (r : JS.run A) (f : A -> JS.run B)
    : JS.run B :=
  match r with
  | JS.Ok a => f a
  | JS.Raise e => JS.Raise e
  | JS.NotModelled => JS.NotModelled
  end.

Fixpoint render (variables : gmap string string) (pieces : list piece)
    : JS.run string :=
  match pieces with
  | [] => JS.Ok EmptyString
  | Char c :: rest => run_map (String c) (render variables rest)
  | Hole inner :: rest =>
      run_bind (replacement variables inner) (fun value =>
        run_map (String.append value) (render variables rest))
  end.

(** [replaceVariables(text, variables)] *)
Definition replaceVariables (text : string) (variables : gmap string string)
    : JS.run string :=
  render variables (scan text).

Fixpoint map_messages (f : ChatMessage -> JS.run ChatMessage)
    (messages : list ChatMessage) : JS.run (list ChatMessage) :=
  match messages with
  | [] => JS.Ok []
  | message :: rest =>
      run_bind (f message) (fun message' =>
        run_map (cons message') (map_messages f rest))
  end.

(** [compilePrompt(prompt, variables)]; on a value that is neither a
    string nor an array, [prompt.map] is not a function. *)
Definition compilePrompt (prompt : prompt_value)
    (variables : gmap string string) : JS.run prompt_value :=
  match prompt with
  | PString text => run_map PString (replaceVariables text variables)
  | PArray messages =>
      run_map PArray
        (map_messages
           (fun message =>
              run_map (fun text => {| role := role message; content := text |})
                (replaceVariables (content message) variables))
           messages)
  | POther => JS.Raise "TypeError"
  end.

End Template.

(** The text that a list of pieces was cut from. *)
Fixpoint source (pieces : list Template.piece) : string :=
  match pieces with
  | [] => EmptyString
  | Template.Char c :: rest => String c (source rest)
  | Template.Hole inner :: rest => "{{" +:+ inner +:+ "}}" +:+ source rest
  end.

(** ** [src/tools/get-prompt.ts]: the handler of the [get-prompt] tool

    The handler closes over the client and over the cache object that
    [getCache('prompts', { ttl: 300 })] returned when the handler was
    created; here the cache object and the world are passed through.
    [Date.now()] is read once by [cache.get] ([now]) and, after the
    network call, once by [cache.set] ([later]). *)

Module GetPromptTool.
Import Types LangfuseAPIClient.

Record PromptVersion : Type := mkPrompt {
  name : string;
  version : JS.number;
  type : string;
  prompt : prompt_value;
  config : option PromptConfig;
  labels : list string;
  tags : list string;
  commitMessage : option string;
  createdAt : string;
  updatedAt : string;
  variables : list string
}.

Record GetPromptInput : Type := mkInput {
  inputName : string;
  inputVersion : option JS.number;
  inputLabel : option string;
  arguments : option (gmap string string)
}.

(** The object that the handler formats. *)
Record GetPromptResult : Type := mkResult {
  resultName : string;
  resultVersion : JS.number;
  resultType : string;
  resultPrompt : prompt_value;
  originalPrompt : prompt_value;
  resultConfig : option PromptConfig;
  resultLabels : list string;
  resultTags : list string;
  resultVariables : list string;
  providedArguments : gmap string string;
  missingArguments : list string;
  resultCreatedAt : string;
  resultUpdatedAt : string;
  resultCommitMessage : option string;
  cached : bool
}.

(** [{ content: [{ type: 'text', text }], isError? }] *)
Record CallToolResult : Type := mkToolResult {
  text : string;
  isError : bool
}.

(** [error.message], as each constructor sets it. *)
Definition message {Json : Type} (e : error Json) : string :=
  match e with
  | APIError _ message _ => message
  | ValidationError field constraint =>
      "Validation failed for " +:+ field +:+ ": " +:+ constraint
  | AuthenticationError message => message
  | RateLimitError _ message => message
  | Error _ message => message
  end.

Section Handler.
Variable encodeURIComponent : string -> string.
Variable number_toString : JS.number -> string.
(** [JSON.stringify(result, null, 2)] *)
Variable stringify : GetPromptResult -> string.

(** [`${input.name}:${input.version || 'latest'}:${input.label || ''}`] *)
Definition cacheKey (input : GetPromptInput) : string :=
  inputName input +:+ ":"
  +:+ (if JSTruthy.of_number (inputVersion input)
       then number_toString (default JS.NaN (inputVersion input))
       else "latest")
  +:+ ":" +:+ JS.str_or (inputLabel input) "".

(** [!input.arguments?.[v]]: a missing entry and an empty string are
    falsy; a member inherited from [Object.prototype] is truthy. *)
Definition is_missing (arguments : option (gmap string string))
    (v : string) : bool :=
  match arguments with
  | None => true
  | Some arguments =>
      match arguments !! v with
      | Some value => JS.str_falsy value
      | None => negb (bool_decide (v ∈ Template.inherited))
      end
  end.

(** The part of the [try] block after the prompt has been obtained. *)
Definition respond (input : GetPromptInput) (prompt : PromptVersion)
    (fromCache : bool) : JS.run CallToolResult :=
  let variables := Template.extractVariables (GetPromptTool.prompt prompt) in
  let compiledPrompt :=
    match arguments input with
    | Some arguments =>
        if bool_decide (arguments = ∅) then JS.Ok (GetPromptTool.prompt prompt)
        else Template.compilePrompt (GetPromptTool.prompt prompt) arguments
    | None => JS.Ok (GetPromptTool.prompt prompt)
    end in
  match compiledPrompt with
  | JS.Ok compiledPrompt =>
      JS.Ok {|
        text := stringify {|
          resultName := name prompt;
          resultVersion := version prompt;
          resultType := type prompt;
          resultPrompt := compiledPrompt;
          originalPrompt := GetPromptTool.prompt prompt;
          resultConfig := config prompt;
          resultLabels := labels prompt;
          resultTags := tags prompt;
          resultVariables := variables;
          providedArguments := default ∅ (arguments input);
          missingArguments := filter (fun v => is_missing (arguments input) v)
                                variables;
          resultCreatedAt := createdAt prompt;
          resultUpdatedAt := updatedAt prompt;
          resultCommitMessage := commitMessage prompt;
          cached := fromCache |};
        isError := false |}
  | JS.Raise _ => JS.NotModelled
  | JS.NotModelled => JS.NotModelled
  end.

(** The [catch] block. *)
Definition failed (e : error PromptVersion) : JS.run CallToolResult :=
  JS.Ok {| text := "Error getting prompt: " +:+ message e; isError := true |}.

(** [getPromptHandler(input)] *)
Definition getPromptHandler (cl : LangfuseAPIClient.t)
    (input : GetPromptInput) (now later : Z)
    (c : Cache.t PromptVersion) (w : world PromptVersion)
    : JS.run CallToolResult * (Cache.t PromptVersion * world PromptVersion) :=
  let cacheKey := cacheKey input in
  let '(cachedPrompt, c1) := Cache.get now cacheKey c in
  match cachedPrompt with
  | Some prompt => (respond input prompt true, (c1, w))
  | None =>
      let '(fetched, w1) :=
        getPrompt encodeURIComponent number_toString cl (inputName input)
          (inputVersion input) (inputLabel input) w in
      match fetched with
      | Returned prompt =>
          let c2 := Cache.set later cacheKey prompt None c1 in
          (respond input prompt false, (c2, w1))
      | Threw e => (failed e, (c1, w1))
      end
  end.

End Handler.

End GetPromptTool.

(** ** [src/lib/validation.ts]: [validatePromptConfig]

    The numeric fields are only compared with integer constants, so a
    number is taken here as what a double is: [NaN], an infinity, or a
    finite value, which is a rational. *)

Module ConfigValidation.
Import Validation.

Inductive double : Type :=
| NaN
| Infinity (negative : bool)
| Finite (q : Q).

(** [x < k] for an integer constant [k] *)
Definition lt_int (x : double) (k : Z) : bool :=
  match x with
  | NaN => false
  | Infinity negative => negative
  | Finite q => negb (Qle_bool (inject_Z k) q)
  end.

(** [x > k] for an integer constant [k] *)
Definition gt_int (x : double) (k : Z) : bool :=
  match x with
  | NaN => false
  | Infinity negative => negb negative
  | Finite q => negb (Qle_bool q (inject_Z k))
  end.

Record PromptConfig : Type := mkConfig {
  model : option string;
  temperature : option double;
  maxTokens : option double;
  topP : option double;
  frequencyPenalty : option double;
  presencePenalty : option double;
  stopSequences : option (list string)
}.

(** [x !== undefined && (x < lo || x > hi)] *)
Definition outside (x : option double) (lo hi : Z) : bool :=
  match x with
  | Some x => lt_int x lo || gt_int x hi
  | None => false
  end.

(** [x !== undefined && x < lo] *)
Definition below (x : option double) (lo : Z) : bool :=
  match x with
  | Some x => lt_int x lo
  | None => false
  end.

(** [validatePromptConfig(config)], on a config whose fields have their
    declared types (so that the [typeof] and [Array.isArray] tests
    pass). *)
Definition validatePromptConfig (config : PromptConfig) : verdict :=
  if outside (temperature config) 0 2 then
    Throws "config.temperature" "Temperature must be a number between 0 and 2"
  else if below (maxTokens config) 1 then
    Throws "config.maxTokens" "Max tokens must be a positive number"
  else if outside (topP config) 0 1 then
    Throws "config.topP" "Top P must be a number between 0 and 1"
  else if outside (frequencyPenalty config) (-2) 2 then
    Throws "config.frequencyPenalty"
      "Frequency penalty must be a number between -2 and 2"
  else if outside (presencePenalty config) (-2) 2 then
    Throws "config.presencePenalty"
      "Presence penalty must be a number between -2 and 2"
  else Passes.

End ConfigValidation.

(** A field that is absent, [NaN], or a finite number between the
    bounds. *)
Definition absent_NaN_or_within (x : option ConfigValidation.double)
    (lo hi : Z) : Prop :=
  match x with
  | None => True
  | Some ConfigValidation.NaN => True
  | Some (ConfigValidation.Infinity _) => False
  | Some (ConfigValidation.Finite q) =>
      (inject_Z lo <= q)%Q /\ (q <= inject_Z hi)%Q
  end.

(** A field that is absent, [NaN], plus infinity, or a finite number of
    at least the bound. *)
Definition absent_NaN_or_at_least (x : option ConfigValidation.double)
    (lo : Z) : Prop :=
  match x with
  | None => True
  | Some ConfigValidation.NaN => True
  | Some (ConfigValidation.Infinity negative) => negative = false
  | Some (ConfigValidation.Finite q) => (inject_Z lo <= q)%Q
  end.

(** The normal form of the filters of [listPrompts]: a falsy filter is no
    filter. *)
Definition usable_string (x : option string) : option string :=
  if JSTruthy.of_string x then x else None.

Definition usable_number (x : option JS.number) : option JS.number :=
  if JSTruthy.of_number x then x else None.

(** Sample data for the further properties. *)

Definition greeting : GetPromptTool.PromptVersion :=
  {| GetPromptTool.name := "greeting";
     GetPromptTool.version := JS.Num 3;
     GetPromptTool.type := "text";
     GetPromptTool.prompt := Types.PString "Hello {{name}}";
     GetPromptTool.config := None;
     GetPromptTool.labels := ["production"];
     GetPromptTool.tags := [];
     GetPromptTool.commitMessage := None;
     GetPromptTool.createdAt := "2025-01-01T00:00:00Z";
     GetPromptTool.updatedAt := "2025-01-01T00:00:00Z";
     GetPromptTool.variables := ["name"] |}.

(** A server that answers every request with the greeting prompt. *)
Definition serving : LangfuseAPIClient.world GetPromptTool.PromptVersion :=
  {| LangfuseAPIClient.script := fun _ =>
       LangfuseAPIClient.Responded
         (LangfuseAPIClient.mkResponse 200 None "{...}" (Some greeting));
     LangfuseAPIClient.calls := 0;
     LangfuseAPIClient.log := [] |}.

(** A server that does not know the prompt. *)
Definition missing : LangfuseAPIClient.world GetPromptTool.PromptVersion :=
  {| LangfuseAPIClient.script := fun _ =>
       LangfuseAPIClient.Responded
         (LangfuseAPIClient.mkResponse 404 None "Not Found" None);
     LangfuseAPIClient.calls := 0;
     LangfuseAPIClient.log := [] |}.

Definition ask (name : string) (version : option JS.number)
    : GetPromptTool.GetPromptInput :=
  {| GetPromptTool.inputName := name;
     GetPromptTool.inputVersion := version;
     GetPromptTool.inputLabel := None;
     GetPromptTool.arguments := None |}.

(** Stand-ins for the printers of the runtime at the sample inputs. *)
Definition print_number (n : JS.number) : string :=
  match n with
  | JS.Num 0 => "0"
  | JS.Num 3 => "3"
  | JS.NaN => "NaN"
  | _ => "?"
  end.

Definition print_result (r : GetPromptTool.GetPromptResult) : string :=
  GetPromptTool.resultName r
  +:+ (if GetPromptTool.cached r then " (cached)" else " (fetched)").

(** Every request is rejected as [fetch] of Node does on a network
    failure. *)
Definition unreachable : LangfuseAPIClient.world string :=
  fresh_world (fun _ => LangfuseAPIClient.Rejected "TypeError" "fetch failed").

(** A registry with the two caches of the tools, one entry in the first. *)
Definition two_caches : list (CacheManager.action (T := string)) :=
  [CacheManager.GetCache "prompts"
     (Some {| Types.ttl := Some (JS.Num 300); Types.keyPrefix := None |});
   CacheManager.GetCache "prompts-list"
     (Some {| Types.ttl := Some (JS.Num 60); Types.keyPrefix := None |});
   CacheManager.Method 0%nat (Cache.set 0 "greeting:latest:" "v" None)].

(** ** [src/index.ts]: [getConfig]

    [process.env] is a map from names to strings; the function returns the
    configuration or throws an [Error] with the given message. *)

Module Main.
Import Types.

Definition getConfig (env : gmap string string) : string + LangfuseConfig :=
  let publicKey := env !! "LANGFUSE_PUBLIC_KEY" in
  let secretKey := env !! "LANGFUSE_SECRET_KEY" in
  let baseUrl := JS.str_or (env !! "LANGFUSE_BASEURL")
                   "https://cloud.langfuse.com" in
  if negb (JSTruthy.of_string publicKey) || negb (JSTruthy.of_string secretKey)
  then inl "Missing required environment variables: LANGFUSE_PUBLIC_KEY and LANGFUSE_SECRET_KEY"
  else inr {|
    publicKey := default "" publicKey;
    secretKey := default "" secretKey;
    baseUrl := Some baseUrl;
    requestTimeout :=
      Some (JS.parseInt (JS.str_or (env !! "LANGFUSE_REQUEST_TIMEOUT") "30000"));
    maxRetries :=
      Some (JS.parseInt (JS.str_or (env !! "LANGFUSE_MAX_RETRIES") "3")) |}.

End Main.

(** An environment with the two keys and an unparsable time-out. *)
Definition sample_env : gmap string string :=
  <["LANGFUSE_PUBLIC_KEY" := "pk"]>
    (<["LANGFUSE_SECRET_KEY" := "sk"]>
       (<["LANGFUSE_REQUEST_TIMEOUT" := "30s?"]>
          (<["LANGFUSE_MAX_RETRIES" := "five"]> ∅))).
(** * Properties *)

(** ** Deleting while iterating *)

Section FoldDelete.
Context {V X : Type} (key_of : X -> string) (doomed : X -> bool).


Lemma foldl_delete_hit (l : list X) (m : gmap string V) (k : string) :
  (exists x, x ∈ l /\ doomed x = true /\ key_of x = k) ->
  foldl (delete_step key_of doomed) m l !! k = None.
Proof.
  revert m. induction l as [|y l IH]; intros m (x & Hin & Hd & Hk).
  - by apply elem_of_nil in Hin.
  - simpl. apply elem_of_cons in Hin as [->|Hin].
    + clear IH. unfold delete_step at 2. rewrite Hd, Hk.
      generalize (delete k m), (lookup_delete_eq m k).
      induction l as [|z l IH]; intros m' Hm'; [done|].
      simpl. apply IH. unfold delete_step.
      destruct (doomed z); [|done].
      rewrite lookup_delete. case_decide; done.
    + apply IH. eauto.
Qed.

Lemma foldl_delete_miss (l : list X) (m : gmap string V) (k : string) :
  (forall x, x ∈ l -> doomed x = true -> key_of x <> k) ->
  foldl (delete_step key_of doomed) m l !! k = m !! k.
Proof.
  revert m. induction l as [|y l IH]; intros m Hall; [done|].
  simpl. rewrite IH.
  - unfold delete_step. destruct (doomed y) eqn:Hd; [|done].
    apply lookup_delete_ne. apply Hall; [left|done].
  - intros x Hin. apply Hall. by right.
Qed.
End FoldDelete.

(** ** The cache *)

Section CacheFacts.
Context {T : Type}.
Implicit Types (c : Cache.t T) (e : Types.CacheEntry T).

Lemma cleanup_lookup (now : Z) c (k : string) :
  Cache.cache (Cache.cleanup now c) !! k = unexpired now (Cache.cache c !! k).
Proof.
  unfold Cache.cleanup; simpl.
  change (Cache.cleanup_step now)
    with (delete_step (V := Types.CacheEntry T) fst
            (fun ke : string * Types.CacheEntry T => now >? Types.expiresAt ke.2)).
  destruct (Cache.cache c !! k) as [e|] eqn:Hk; simpl.
  - destruct (Z.ltb_spec (Types.expiresAt e) now) as [Hlt|Hge].
    + apply foldl_delete_hit. exists (k, e). split_and!; simpl.
      * by apply elem_of_map_to_list.
      * by apply Z.gtb_lt.
      * done.
    + rewrite foldl_delete_miss; [done|].
      intros [k' e'] Hin Hd Heq; simpl in *; subst k'.
      apply elem_of_map_to_list in Hin. apply Z.gtb_lt in Hd.
      rewrite Hk in Hin. injection Hin as <-. lia.
  - rewrite foldl_delete_miss; [done|].
    intros [k' e'] Hin _ Heq; simpl in *; subst k'.
    apply elem_of_map_to_list in Hin. congruence.
Qed.

Lemma get_value (now : Z) (key : string) c :
  (Cache.get now key c).1 =
  Types.data <$> unexpired now (Cache.cache c !! Cache.fullKey c key).
Proof.
  unfold Cache.get, unexpired.
  destruct (Cache.cache c !! Cache.fullKey c key) as [e|]; [|done].
  rewrite Z.gtb_ltb. by destruct (Types.expiresAt e <? now).
Qed.

Lemma unexpired_None (now : Z) (o : option (Types.CacheEntry T)) :
  unexpired now o = None <-> absent now o.
Proof.
  unfold unexpired, absent. destruct o as [e|].
  - destruct (Z.ltb_spec (Types.expiresAt e) now); split.
    + intros _. right. eauto.
    + done.
    + done.
    + intros [|(e' & [= <-] & ?)]; [done|lia].
  - split; [by left|done].
Qed.

Lemma set_lookup (now : Z) (key : string) (value : T)
    (ttl : option JS.number) c :
  Cache.cache (Cache.set now key value ttl c) =
  <[Cache.fullKey c key :=
      Types.mkEntry value (now + JS.num_or ttl (Cache.defaultTTL c) * 1000)]>
    (Cache.cache c).
Proof. reflexivity. Qed.

End CacheFacts.

Section CacheClaims.
Context {T : Type}.
Implicit Types (c : Cache.t T) (e : Types.CacheEntry T).

(** C3 (amended): for every cache, key and moment [now], a key is
    logically absent exactly when no entry is stored for it or the stored
    entry's expiry time is strictly before [now]: [get] returns absent
    exactly for such keys and still returns the value in the boundary
    case [expiresAt = now]; [cleanup()] removes exactly the entries with
    [expiresAt < now] at call time and leaves every other entry, the
    default TTL and the prefix unchanged. *)
Theorem cache_absence_is_strict_expiry (now : Z) (key : string) c :
  ((Cache.get now key c).1 = None <->
     absent now (Cache.cache c !! Cache.fullKey c key))
  /\ (forall e, Cache.cache c !! Cache.fullKey c key = Some e ->
        Types.expiresAt e = now ->
        (Cache.get now key c).1 = Some (Types.data e))
  /\ (forall k, Cache.cache (Cache.cleanup now c) !! k = None <->
        absent now (Cache.cache c !! k))
  /\ (forall k e, Cache.cache c !! k = Some e -> now <= Types.expiresAt e ->
        Cache.cache (Cache.cleanup now c) !! k = Some e)
  /\ Cache.defaultTTL (Cache.cleanup now c) = Cache.defaultTTL c
  /\ Cache.keyPrefix (Cache.cleanup now c) = Cache.keyPrefix c.
Proof.
  split_and!; try reflexivity.
  - rewrite get_value, fmap_None. apply unexpired_None.
  - intros e He Hnow. rewrite get_value, He. simpl.
    destruct (Z.ltb_spec (Types.expiresAt e) now); [lia|done].
  - intros k. rewrite cleanup_lookup. apply unexpired_None.
  - intros k e He Hnow. rewrite cleanup_lookup, He. simpl.
    destruct (Z.ltb_spec (Types.expiresAt e) now); [lia|done].
Qed.

(** C4 (amended): every call [set(key, value, ttl?)] stores under
    [prefix + key] an entry with [expiresAt = now + eff * 1000], where
    [eff] is the override if it is provided and is neither [0] nor [NaN],
    and the default TTL otherwise; the entry overwrites whatever was
    stored under that key and no other key changes; an immediate
    [get(key)] returns the value whenever [eff] is positive. *)
Theorem set_stores_with_effective_ttl (now : Z) (key : string) (value : T)
    (ttl : option JS.number) c :
  Cache.cache (Cache.set now key value ttl c) =
    <[Cache.fullKey c key :=
        Types.mkEntry value (now + effective_ttl ttl c * 1000)]>
      (Cache.cache c)
  /\ (0 < effective_ttl ttl c ->
      (Cache.get now key (Cache.set now key value ttl c)).1 = Some value).
Proof.
  assert (JS.num_or ttl (Cache.defaultTTL c) = effective_ttl ttl c) as Heff.
  { destruct ttl as [[|z]|]; simpl; try done.
    case_bool_decide; subst; [done|].
    by destruct (Z.eqb_spec z 0). }
  split.
  - by rewrite set_lookup, Heff.
  - intros Hpos. rewrite get_value.
    change (Cache.fullKey (Cache.set now key value ttl c) key)
      with (Cache.fullKey c key).
    rewrite set_lookup, lookup_insert_eq, Heff. simpl.
    destruct (Z.ltb_spec (now + effective_ttl ttl c * 1000) now); [lia|done].
Qed.

End CacheClaims.

(** C3, as stated, fails at the boundary: at [now = 1000] the entry of
    [one_second_cache] has [expiresAt <= now], yet [get] returns its value
    and [cleanup] keeps it. *)
Lemma boundary_entry_is_live :
  let e := Types.mkEntry "v" 1000 in
  Cache.cache one_second_cache !! "k" = Some e
  /\ Types.expiresAt e <= 1000
  /\ (Cache.get 1000 "k" one_second_cache).1 = Some "v"
  /\ Cache.cache (Cache.cleanup 1000 one_second_cache) !! "k" = Some e.
Proof. vm_compute. split_and!; congruence. Qed.

Lemma cache_absence_is_strict_expiry_witness :
  (Cache.get 1000 "k" one_second_cache).1 = Some "v"
  /\ Cache.cache (Cache.cleanup 1000 one_second_cache) !! "k"
     = Some (Types.mkEntry "v" 1000).
Proof.
  pose proof (cache_absence_is_strict_expiry 1000 "k" one_second_cache)
    as (_ & Hget & _ & Hkeep & _).
  split.
  - apply (Hget (Types.mkEntry "v" 1000)); reflexivity.
  - apply Hkeep; [reflexivity | simpl; lia].
Defined.

(** C4, as stated, fails for [ttlSecondsOverride = 0]: the entry does not
    expire at [now + 0 * 1000] but at [now + 300 * 1000]. *)
Lemma zero_ttl_override_is_ignored :
  Cache.cache (Cache.set 1000 "k" "v" (Some (JS.Num 0)) (Cache.new None)) !! "k"
    = Some (Types.mkEntry "v" 301000)
  /\ 301000 <> 1000 + 0 * 1000.
Proof. split; [reflexivity | lia]. Qed.

Lemma set_stores_with_effective_ttl_witness :
  (Cache.get 1000 "k"
     (Cache.set 1000 "k" "v" (Some (JS.Num 5)) (Cache.new None))).1 = Some "v".
Proof.
  apply (set_stores_with_effective_ttl 1000 "k" "v" (Some (JS.Num 5))
           (Cache.new None)).
  simpl. lia.
Defined.

(** ** Pattern invalidation *)

Section InvalidateFacts.
Context {T : Type}.
Implicit Types (c : Cache.t T) (m : gmap string (Types.CacheEntry T)).

Lemma invalidate_loop_lookup `{RegExp.Engine} (r : RegExp.regex) m (k : string) :
  foldl (Cache.invalidate_step r) m (map_to_list m).*1 !! k
  = if RegExp.test r k then None else m !! k.
Proof.
  change (Cache.invalidate_step r)
    with (delete_step (V := Types.CacheEntry T) id (RegExp.test r)).
  destruct (RegExp.test r k) eqn:Htest.
  - destruct (m !! k) as [e|] eqn:Hk.
    + apply foldl_delete_hit. exists k. split_and!; [|done..].
      apply list_elem_of_fmap. exists (k, e). split; [done|].
      by apply elem_of_map_to_list.
    + rewrite foldl_delete_miss; [done|].
      intros x Hin _ Heq. unfold id in Heq. subst x.
      apply list_elem_of_fmap in Hin as ([k' e'] & -> & Hin).
      apply elem_of_map_to_list in Hin. simpl in Hk. congruence.
  - rewrite foldl_delete_miss; [done|].
    intros x _ Hx Heq. unfold id in Heq. congruence.
Qed.

Lemma invalidatePattern_compiled `{RegExp.Engine} (pattern : string)
    (r : RegExp.regex) c :
  RegExp.compile pattern = JS.Ok r ->
  exists c', Cache.invalidatePattern pattern c = JS.Ok c'
    /\ (forall k, Cache.cache c' !! k
                  = if RegExp.test r k then None else Cache.cache c !! k)
    /\ Cache.defaultTTL c' = Cache.defaultTTL c
    /\ Cache.keyPrefix c' = Cache.keyPrefix c.
Proof.
  intros Hr. unfold Cache.invalidatePattern. rewrite Hr.
  eexists. split; [reflexivity|]. split_and!; [|done..].
  intros k. apply invalidate_loop_lookup.
Qed.

End InvalidateFacts.

Section LiteralPatterns.
Import RegExp RegExp.Fragment.

Lemma literal_char_token (c : ascii) :
  is_syntax_char c = false ->
  c <> "\"%char /\ token_of_char c = TChar c.
Proof.
  intros Hc. split.
  - intros ->. discriminate Hc.
  - unfold token_of_char. rewrite Hc.
    repeat (case_bool_decide; [subst c; discriminate Hc|]). done.
Qed.

Lemma parse_literal (p : string) :
  literal p = true -> parse p = JS.Ok (literal_terms p).
Proof.
  unfold parse. induction p as [|c p IH]; [done|].
  simpl. intros [Hc Hp]%andb_prop. apply negb_true_iff in Hc.
  destruct (literal_char_token c Hc) as [Hbs Htok].
  rewrite bool_decide_eq_false_2, Htok by done.
  specialize (IH Hp). destruct p as [|d p]; [done|].
  simpl in Hp. apply andb_prop in Hp as [Hd _]. apply negb_true_iff in Hd.
  destruct (literal_char_token d Hd) as [Hbs' Htok'].
  revert IH. simpl tokens. rewrite bool_decide_eq_false_2, Htok' by done.
  intros IH. cbn [terms quantifier_of]. cbn [terms] in IH. by rewrite IH.
Qed.

Lemma match_here_literal (p s : string) :
  match_here (literal_terms p) s = true <-> exists r, s = p +:+ r.
Proof.
  revert s. induction p as [|c p IH]; intros s; simpl.
  - split; [eauto|done].
  - destruct s as [|d s].
    + split; [done|]. by intros (r & ?).
    + rewrite andb_true_iff, bool_decide_eq_true, IH. split.
      * intros (-> & r & ->). eauto.
      * intros (r & [= -> ->]). eauto.
Qed.

Lemma search_literal (p s : string) :
  search (literal_terms p) s = true <-> contains s p.
Proof.
  unfold contains. induction s as [|d s IH].
  - simpl. rewrite orb_false_r, match_here_literal. split.
    + intros (r & ->). by exists "", r.
    + intros (l & r & Heq). destruct l; [by exists r|done].
  - cbn [search]. rewrite orb_true_iff, match_here_literal, IH. split.
    + intros [(r & ->)|(l & r & ->)].
      * by exists "", r.
      * by exists (String d l), r.
    + intros ([|d' l] & r & Heq).
      * left. by exists r.
      * right. injection Heq as <- ->. by exists l, r.
Qed.

End LiteralPatterns.

(** C9 (amended): for every pattern that [new RegExp] accepts and every
    cache state, [invalidatePattern(pattern)] removes exactly the entries
    whose prefixed key the regular expression matches somewhere (no
    full-match requirement), regardless of each entry's expiry state, and
    leaves every other entry, the default TTL and the prefix untouched;
    when [new RegExp] throws, so does [invalidatePattern].  A pattern
    without regular-expression syntax characters (such as a prompt name of
    letters and digits) is accepted and matches exactly the keys that
    contain it as a substring. *)
Theorem invalidatePattern_removes_regex_matches :
  (forall (E : RegExp.Engine) (T : Type) (pattern : string) (c : Cache.t T),
     match RegExp.compile pattern with
     | JS.Ok r =>
         exists c', Cache.invalidatePattern pattern c = JS.Ok c'
           /\ (forall k, Cache.cache c' !! k
                 = if RegExp.test r k then None else Cache.cache c !! k)
           /\ Cache.defaultTTL c' = Cache.defaultTTL c
           /\ Cache.keyPrefix c' = Cache.keyPrefix c
     | JS.Raise e => Cache.invalidatePattern pattern c = JS.Raise e
     | JS.NotModelled => Cache.invalidatePattern pattern c = JS.NotModelled
     end)
  /\ (forall (T : Type) (pattern : string) (c : Cache.t T),
        RegExp.literal pattern = true ->
        exists c',
          Cache.invalidatePattern (H := RegExp.Fragment.engine) pattern c
            = JS.Ok c'
          /\ (forall k, RegExp.contains k pattern ->
                Cache.cache c' !! k = None)
          /\ (forall k, ~ RegExp.contains k pattern ->
                Cache.cache c' !! k = Cache.cache c !! k)).
Proof.
  split.
  - intros E T pattern c.
    destruct (RegExp.compile pattern) as [r| |] eqn:Hr.
    + by apply invalidatePattern_compiled.
    + unfold Cache.invalidatePattern. by rewrite Hr.
    + unfold Cache.invalidatePattern. by rewrite Hr.
  - intros T pattern c Hlit.
    destruct (invalidatePattern_compiled (H := RegExp.Fragment.engine)
                pattern (literal_terms pattern) c (parse_literal _ Hlit))
      as (c' & Hrun & Hlookup & _).
    exists c'. split; [done|]. split; intros k Hk; rewrite Hlookup.
    + apply search_literal in Hk. simpl. by rewrite Hk.
    + simpl. destruct (RegExp.Fragment.search _ k) eqn:Hs; [|done].
      apply search_literal in Hs. done.
Qed.

(** C9, as stated, fails for the plain string [a+b]: the key [a+b]
    contains it, yet [invalidatePattern("a+b")] leaves the entry in
    place, because [+] is read as a quantifier. *)
Lemma plus_pattern_misses_its_own_key :
  RegExp.contains "a+b" "a+b"
  /\ Cache.cache plus_cache !! "a+b" = Some (Types.mkEntry "v" 300000)
  /\ exists c',
       Cache.invalidatePattern (H := RegExp.Fragment.engine) "a+b" plus_cache
         = JS.Ok c'
       /\ Cache.cache c' !! "a+b" = Some (Types.mkEntry "v" 300000).
Proof.
  split; [by exists "", ""|]. split; [reflexivity|].
  eexists. split; reflexivity.
Qed.

Lemma invalidatePattern_removes_regex_matches_witness :
  exists c',
    Cache.invalidatePattern (H := RegExp.Fragment.engine) "k"
      one_second_cache = JS.Ok c'
    /\ Cache.cache c' !! "k" = None.
Proof.
  destruct (proj2 invalidatePattern_removes_regex_matches string "k"
              one_second_cache eq_refl) as (c' & Hrun & Hhit & _).
  exists c'. split; [exact Hrun|].
  apply Hhit. by exists "", "".
Defined.

(** ** The cache registry *)

Section RegistryFacts.
Context {T : Type}.
Implicit Types (st : CacheManager.state T) (a : CacheManager.action (T := T)).

Lemma getCache_registered (name : string) (options : option Types.CacheOptions)
    st (l : CacheManager.loc) :
  CacheManager.caches st !! name = Some l ->
  CacheManager.getCache name options st = (Some l, st).
Proof.
  intros Hl. unfold CacheManager.getCache.
  rewrite bool_decide_eq_true_2 by eauto. by rewrite Hl.
Qed.

Lemma getCache_fresh (name : string) (options : option Types.CacheOptions) st :
  CacheManager.caches st !! name = None ->
  CacheManager.getCache name options st
  = (Some (fresh (dom (CacheManager.heap st))),
     {| CacheManager.heap :=
          <[fresh (dom (CacheManager.heap st)) := Cache.new options]>
            (CacheManager.heap st);
        CacheManager.caches :=
          <[name := fresh (dom (CacheManager.heap st))]>
            (CacheManager.caches st) |}).
Proof.
  intros Hnone. unfold CacheManager.getCache.
  rewrite bool_decide_eq_false_2 by (rewrite Hnone; by intros [? ?]).
  simpl. by rewrite lookup_insert_eq.
Qed.

Lemma getCache_returns (name : string) (options : option Types.CacheOptions) st :
  exists l, (CacheManager.getCache name options st).1 = Some l
    /\ CacheManager.caches (CacheManager.getCache name options st).2 !! name
       = Some l.
Proof.
  destruct (CacheManager.caches st !! name) as [l|] eqn:Hl.
  - exists l. by rewrite (getCache_registered _ _ _ l).
  - rewrite getCache_fresh by done. eexists. split; [done|].
    simpl. by rewrite lookup_insert_eq.
Qed.

Lemma alter_all_is_Some (f : Cache.t T -> Cache.t T)
    (ls : list (string * CacheManager.loc)) (h : gmap CacheManager.loc (Cache.t T))
    (l : CacheManager.loc) :
  is_Some (foldl (fun h nl => alter f nl.2 h) h ls !! l) <-> is_Some (h !! l).
Proof.
  revert h. induction ls as [|nl ls IH]; intros h; [done|].
  simpl. rewrite IH, lookup_alter_is_Some. done.
Qed.

Lemma step_caches_mono a st (n : string) (l : CacheManager.loc) :
  CacheManager.caches st !! n = Some l ->
  CacheManager.caches (CacheManager.step st a) !! n = Some l.
Proof.
  intros Hl. destruct a as [name options| | |l' f]; cbn [CacheManager.step];
    [|exact Hl..].
  destruct (CacheManager.caches st !! name) as [l0|] eqn:Hname.
  - by rewrite (getCache_registered _ _ _ l0).
  - rewrite getCache_fresh by done. simpl.
    rewrite lookup_insert_ne; [done|congruence].
Qed.

Lemma run_caches_mono (acts : list CacheManager.action) st (n : string)
    (l : CacheManager.loc) :
  CacheManager.caches st !! n = Some l ->
  CacheManager.caches (CacheManager.run acts st) !! n = Some l.
Proof.
  unfold CacheManager.run. revert st.
  induction acts as [|a acts IH]; intros st Hl; [done|].
  simpl. apply IH. by apply step_caches_mono.
Qed.

Lemma step_wf a st : registry_wf st -> registry_wf (CacheManager.step st a).
Proof.
  intros [Hlive Hinj].
  destruct a as [name options| | |l' f]; cbn [CacheManager.step].
  - destruct (CacheManager.caches st !! name) as [l0|] eqn:Hname.
    + by rewrite (getCache_registered _ _ _ l0).
    + rewrite getCache_fresh by done. simpl.
      set (l := fresh (dom (CacheManager.heap st))).
      assert (CacheManager.heap st !! l = None) as Hfresh.
      { apply not_elem_of_dom. apply is_fresh. }
      assert (forall n, CacheManager.caches st !! n <> Some l) as Hunused.
      { intros n Hn. apply Hlive in Hn as [? Hn]. congruence. }
      split; simpl.
      * intros n l1. rewrite lookup_insert. case_decide.
        -- intros [= <-]. rewrite lookup_insert_eq. eauto.
        -- intros Hn. rewrite lookup_insert_ne.
           ++ by eapply Hlive.
           ++ intros <-. by eapply Hunused.
      * intros n1 n2 l1. rewrite !lookup_insert.
        repeat case_decide; subst; try done.
        -- intros [= <-] Hn. by apply Hunused in Hn.
        -- intros Hn [= <-]. by apply Hunused in Hn.
        -- apply Hinj.
  - split; simpl; [|done]. intros n l Hn. apply alter_all_is_Some. eauto.
  - split; simpl; [|done]. intros n l Hn. apply alter_all_is_Some. eauto.
  - split; simpl; [|done]. intros n l Hn.
    apply lookup_alter_is_Some. eauto.
Qed.

Lemma run_wf (acts : list CacheManager.action) st :
  registry_wf st -> registry_wf (CacheManager.run acts st).
Proof.
  unfold CacheManager.run. revert st.
  induction acts as [|a acts IH]; intros st Hwf; [done|].
  simpl. apply IH. by apply step_wf.
Qed.

Lemma new_wf : registry_wf (CacheManager.new (T := T)).
Proof. split; intros *; simpl; by rewrite lookup_empty. Qed.

(** C8: on a registry, in whatever state its use has brought it, and
    whatever happens between the two lookups, a second [getCache] with the
    same name returns the reference the first returned and changes
    nothing, whatever options it is given; a cache registered by the first
    lookup is constructed from the options of that lookup; a lookup with a
    different name returns a different reference. *)
Theorem getCache_same_name_same_object
    (before between : list (CacheManager.action (T := T)))
    (name name' : string)
    (options options' : option Types.CacheOptions) :
  let st0 := CacheManager.run before CacheManager.new in
  let first := CacheManager.getCache name options st0 in
  let st1 := CacheManager.run between first.2 in
  exists l : CacheManager.loc,
    first.1 = Some l
    /\ CacheManager.getCache name options' st1 = (Some l, st1)
    /\ (CacheManager.caches st0 !! name = None ->
        CacheManager.heap first.2 !! l = Some (Cache.new options))
    /\ (name <> name' ->
        exists l', (CacheManager.getCache name' options' st1).1 = Some l'
                   /\ l <> l').
Proof.
  intros st0 first st1.
  destruct (getCache_returns name options st0) as (l & Hret & Hreg).
  fold first in Hret, Hreg.
  assert (CacheManager.caches st1 !! name = Some l) as Hreg1
    by by apply run_caches_mono.
  exists l. split_and!; [done|by apply getCache_registered| |].
  - intros Hnone. subst first.
    rewrite (getCache_fresh name options st0 Hnone) in Hret |- *.
    simpl in *. injection Hret as <-. by rewrite lookup_insert_eq.
  - intros Hne.
    destruct (getCache_returns name' options' st1) as (l' & Hret' & Hreg').
    exists l'. split; [done|]. intros <-.
    assert (registry_wf (CacheManager.getCache name' options' st1).2) as [_ Hinj].
    { apply (step_wf (CacheManager.GetCache name' options')).
      apply run_wf.
      apply (step_wf (CacheManager.GetCache name options)).
      apply run_wf, new_wf. }
    apply Hne, (Hinj _ _ l); [|done].
    by apply (step_caches_mono (CacheManager.GetCache name' options')).
Qed.

End RegistryFacts.

Lemma getCache_same_name_same_object_witness :
  exists l l' : CacheManager.loc,
    (CacheManager.getCache (T := string) "prompts" None CacheManager.new).1
      = Some l
    /\ (CacheManager.getCache "prompts-list" None
          (CacheManager.getCache (T := string) "prompts" None
             CacheManager.new).2).1 = Some l'
    /\ l <> l'.
Proof.
  destruct (getCache_same_name_same_object (T := string) [] []
              "prompts" "prompts-list" None None)
    as (l & Hfirst & _ & _ & Hother).
  destruct Hother as (l' & Hsecond & Hne); [done|].
  exists l, l'. split_and!; [exact Hfirst|exact Hsecond|exact Hne].
Defined.

(** ** The API client *)

Section ClientFacts.
Import Types LangfuseAPIClient.
Context {Json : Type} (base64 : string -> string).
Implicit Types (cl : LangfuseAPIClient.t) (w : world Json) (e : error Json).

(** The body of [request], as the source has it. *)
Lemma request_unfold cl (method path : string) (data : option request_data)
    (retryCount : nat) w :
  request cl method path data retryCount w =
  let '(f, w1) := fetch cl method path data w in
  match try_block f with
  | inl result => (result, w1)
  | inr e =>
      if String.eqb (error_name e) "AbortError"
      then (Threw (APIError 408 "Request timeout" None), w1)
      else if should_retry cl retryCount e
      then request cl method path data (S retryCount)
             (sleep (backoff retryCount) w1)
      else (Threw e, w1)
  end.
Proof.
  funelim (request cl method path data retryCount w).
  all: unfold fetch; cbn [fst snd].
  - by rewrite Heq.
  - by rewrite Heq0, Heq.
  - by rewrite Heq0, Heq, retry.
  - by rewrite Heq0, Heq, no_retry.
Qed.

Lemma fetch_advanced cl (method path : string) (data : option request_data) w :
  fetch cl method path data w
  = (script w (calls w), advanced w 1 [fetch_event cl method path data]).
Proof.
  unfold fetch, advanced, fetch_event. by rewrite Nat.add_1_r.
Qed.

Lemma sleep_advanced (ms : Z) w (n : nat) (entries : list event) :
  sleep ms (advanced w n entries) = advanced w n (entries ++ [Sleep ms]).
Proof. unfold sleep, advanced; simpl. by rewrite <- app_assoc. Qed.

Lemma advanced_advanced w (n n' : nat) (entries entries' : list event) :
  advanced (advanced w n entries) n' entries'
  = advanced w (n + n') (entries ++ entries').
Proof.
  unfold advanced; simpl. by rewrite app_assoc, Nat.add_assoc.
Qed.

Lemma try_block_server_error (r : response Json) :
  500 <= status r -> try_block (Responded r) = inr (api_failure r).
Proof.
  intros Hr. unfold try_block, ok.
  rewrite (proj2 (Z.eqb_neq _ 429)), (proj2 (Z.eqb_neq _ 401)),
    (proj2 (Z.eqb_neq _ 403)), (proj2 (Z.leb_gt _ 299)), andb_false_r by lia.
  done.
Qed.

Lemma try_block_success (r : response Json) (value : Json) :
  ok r = true -> json r = Some value ->
  try_block (Responded r) = inl (Returned value).
Proof.
  unfold try_block, ok. intros [Hlo Hhi]%andb_prop Hjson.
  apply Z.leb_le in Hlo, Hhi.
  rewrite (proj2 (Z.eqb_neq _ 429)), (proj2 (Z.eqb_neq _ 401)),
    (proj2 (Z.eqb_neq _ 403)), (proj2 (Z.leb_le 200 _)),
    (proj2 (Z.leb_le _ 299)), Hjson by lia.
  done.
Qed.

Lemma should_retry_server_error cl (retryCount : nat) (r : response Json) :
  500 <= status r ->
  should_retry cl retryCount (api_failure r)
  = (Z.of_nat retryCount <? maxRetries cl).
Proof.
  intros Hr. unfold should_retry; simpl.
  rewrite (proj2 (Z.geb_le _ _)) by lia. apply andb_true_r.
Qed.

(** One attempt that fails with a 5xx status, seen from [request]. *)
Lemma request_server_error cl (method path : string)
    (data : option request_data) (retryCount : nat) w (r : response Json) :
  script w (calls w) = Responded r -> 500 <= status r ->
  request cl method path data retryCount w
  = if Z.of_nat retryCount <? maxRetries cl
    then request cl method path data (S retryCount)
           (advanced w 1 [fetch_event cl method path data;
                          Sleep (2 ^ Z.of_nat retryCount * 1000)])
    else (Threw (api_failure r),
          advanced w 1 [fetch_event cl method path data]).
Proof.
  intros Hscript Hr. rewrite request_unfold, fetch_advanced, Hscript.
  rewrite try_block_server_error by done. cbn [error_name api_failure].
  change (String.eqb "APIError" "AbortError") with false. cbv iota.
  fold (api_failure r). rewrite should_retry_server_error by done.
  by rewrite sleep_advanced.
Qed.

(** Failures with a 5xx status followed by a success. *)
Lemma request_recovers cl (method path : string) (data : option request_data)
    (value : Json) (n retryCount : nat) w :
  (forall i, (i < n)%nat -> server_error_at w (calls w + i)) ->
  success_at w (calls w + n) value ->
  Z.of_nat retryCount + Z.of_nat n <= maxRetries cl ->
  request cl method path data retryCount w
  = (Returned value,
     advanced w (n + 1)
       (retry_log cl method path data retryCount n
        ++ [fetch_event cl method path data])).
Proof.
  revert retryCount w.
  induction n as [|n IH]; intros retryCount w Hfail Hok Hbudget.
  - destruct Hok as (r & Hscript & Hr & Hjson).
    rewrite Nat.add_0_r in Hscript.
    rewrite request_unfold, fetch_advanced, Hscript.
    by rewrite (try_block_success r value).
  - destruct (Hfail 0%nat) as (r & Hscript & Hr); [lia|].
    rewrite Nat.add_0_r in Hscript.
    rewrite (request_server_error _ _ _ _ _ _ r) by done.
    rewrite (proj2 (Z.ltb_lt _ _)) by lia.
    rewrite IH.
    + rewrite advanced_advanced. done.
    + intros i Hi. simpl. unfold server_error_at. simpl.
      replace (calls w + 1 + i)%nat with (calls w + S i)%nat by lia.
      apply Hfail. lia.
    + unfold success_at in *. simpl.
      by replace (calls w + 1 + n)%nat with (calls w + S n)%nat by lia.
    + lia.
Qed.

(** Failures with a 5xx status for ever. *)
Lemma request_gives_up cl (method path : string) (data : option request_data)
    (n retryCount : nat) w :
  (forall i, server_error_at w (calls w + i)) ->
  Z.to_nat (maxRetries cl - Z.of_nat retryCount) = n ->
  exists r, script w (calls w + n) = Responded r
    /\ request cl method path data retryCount w
       = (Threw (api_failure r),
          advanced w (n + 1)
            (retry_log cl method path data retryCount n
             ++ [fetch_event cl method path data])).
Proof.
  revert retryCount w.
  induction n as [|n IH]; intros retryCount w Hfail Hbudget.
  - destruct (Hfail 0%nat) as (r & Hscript & Hr).
    exists r. split; [done|]. rewrite Nat.add_0_r in Hscript.
    rewrite (request_server_error _ _ _ _ _ _ r) by done.
    by rewrite (proj2 (Z.ltb_ge _ _)) by lia.
  - destruct (Hfail 0%nat) as (r & Hscript & Hr).
    rewrite Nat.add_0_r in Hscript.
    rewrite (request_server_error _ _ _ _ _ _ r) by done.
    rewrite (proj2 (Z.ltb_lt _ _)) by lia.
    destruct (IH (S retryCount)
                (advanced w 1 [fetch_event cl method path data;
                               Sleep (2 ^ Z.of_nat retryCount * 1000)]))
      as (r' & Hscript' & Hrun).
    + intros i. unfold server_error_at. simpl.
      replace (calls w + 1 + i)%nat with (calls w + S i)%nat by lia.
      apply Hfail.
    + lia.
    + exists r'. split.
      * simpl in Hscript'.
        by replace (calls w + S n)%nat with (calls w + 1 + n)%nat by lia.
      * rewrite Hrun, advanced_advanced. done.
Qed.


(** C5: a call whose first [n] attempts each fail with an API error of
    status 500 or more and whose next attempt succeeds, with
    [n < maxRetries], returns the success value after [n + 1] calls of
    [fetch], having slept [2^i * 1000] milliseconds after failed attempt
    [i + 1] (1 s, 2 s, 4 s, ...); a call whose attempts all fail with such
    a status makes [maxRetries] retries with the same sleeps and then
    throws the failure of the last attempt. *)
Theorem server_errors_are_retried_with_backoff cl (method path : string)
    (data : option request_data) w :
  (forall (n : nat) (value : Json),
     (forall i, (i < n)%nat -> server_error_at w (calls w + i)) ->
     success_at w (calls w + n) value ->
     Z.of_nat n < maxRetries cl ->
     request cl method path data 0 w
     = (Returned value,
        advanced w (n + 1)
          (retry_log cl method path data 0 n
           ++ [fetch_event cl method path data])))
  /\ ((forall i, server_error_at w (calls w + i)) ->
      exists r,
        script w (calls w + Z.to_nat (maxRetries cl)) = Responded r
        /\ request cl method path data 0 w
           = (Threw (api_failure r),
              advanced w (Z.to_nat (maxRetries cl) + 1)
                (retry_log cl method path data 0
                   (Z.to_nat (maxRetries cl))
                 ++ [fetch_event cl method path data]))).
Proof.
  split.
  - intros n value Hfail Hok Hn. apply request_recovers; [done..|lia].
  - intros Hfail. apply request_gives_up; [done|].
    f_equal. simpl. lia.
Qed.

(** C1 (amended): a request that fails by timeout/abort is surfaced to the
    caller at once as an API error with status 408, after a single call of
    [fetch], with no wait and no retry, whatever [retryCount] and
    [maxRetries] are. *)
Theorem timeout_surfaces_without_retry cl (method path : string)
    (data : option request_data) (retryCount : nat) w (message : string) :
  script w (calls w) = Rejected "AbortError" message ->
  request cl method path data retryCount w
  = (Threw (APIError 408 "Request timeout" None),
     advanced w 1 [fetch_event cl method path data]).
Proof.
  intros Hscript. by rewrite request_unfold, fetch_advanced, Hscript.
Qed.

(** What [request] throws on HTTP 429. *)
Lemma rate_limit_error_thrown cl (method path : string)
    (data : option request_data) (retryCount : nat) w (r : response Json) :
  script w (calls w) = Responded r -> status r = 429 ->
  exists e, (request cl method path data retryCount w).1 = Threw e
    /\ e = RateLimitError (JS.parseInt (JS.str_or (retryAfterHeader r) "60"))
              "Rate limit exceeded".
Proof.
  intros Hscript Hs. eexists. split; [|reflexivity].
  rewrite request_unfold, fetch_advanced, Hscript.
  unfold try_block. rewrite Hs. cbn. unfold should_retry. simpl.
  by rewrite andb_false_r.
Qed.

(** C7: a call answered with HTTP 429 throws the rate-limit error, and a
    call answered with 401 or 403 throws the authentication error, after
    a single call of [fetch] and no sleep, whatever [maxRetries] and
    [retryCount] are. *)
Theorem rate_limit_and_auth_errors_are_not_retried cl (method path : string)
    (data : option request_data) (retryCount : nat) w (r : response Json) :
  script w (calls w) = Responded r ->
  (status r = 429 ->
   request cl method path data retryCount w
   = (Threw (RateLimitError
               (JS.parseInt (JS.str_or (retryAfterHeader r) "60"))
               "Rate limit exceeded"),
      advanced w 1 [fetch_event cl method path data]))
  /\ (status r = 401 \/ status r = 403 ->
      request cl method path data retryCount w
      = (Threw (AuthenticationError "Authentication failed"),
         advanced w 1 [fetch_event cl method path data])).
Proof.
  intros Hscript. split.
  - intros Hs. rewrite request_unfold, fetch_advanced, Hscript.
    unfold try_block. rewrite Hs. cbn. unfold should_retry. simpl.
    by rewrite andb_false_r.
  - intros Hs. rewrite request_unfold, fetch_advanced, Hscript.
    unfold try_block.
    destruct Hs as [-> | ->]; cbn; unfold should_retry; simpl;
      by rewrite andb_false_r.
Qed.

(** What the rate-limit error carries when the header is missing or empty,
    and when it is a number of seconds. *)
Lemma retry_after_default_and_digits :
  JS.parseInt (JS.str_or None "60") = JS.Num 60
  /\ JS.parseInt (JS.str_or (Some "") "60") = JS.Num 60
  /\ JS.parseInt (JS.str_or (Some "120") "60") = JS.Num 120.
Proof. by vm_compute. Qed.

(** C2 (the code at the failing input): a 429 response whose
    [Retry-After] header is an HTTP date, which is not parsable as an
    integer, makes [request] throw a rate-limit error whose [retryAfter]
    is [NaN], not 60. *)
Theorem unparsable_retry_after_gives_NaN cl (method path : string)
    (data : option request_data) (retryCount : nat) w (r : response Json) :
  script w (calls w) = Responded r ->
  status r = 429 ->
  retryAfterHeader r = Some "Wed, 21 Oct 2015 07:28:00 GMT" ->
  (request cl method path data retryCount w).1
  = Threw (RateLimitError JS.NaN "Rate limit exceeded").
Proof.
  intros Hscript Hs Hh.
  destruct (rate_limit_error_thrown cl method path data retryCount w r
              Hscript Hs) as (e & -> & ->).
  by rewrite Hh.
Qed.

(** C6 (amended): a [createPrompt] call whose params have type ["chat"]
    with a content that is not an array, or type ["text"] with a content
    that is not a string, fails before any network request is issued (the
    world is unchanged) with a plain [Error] that carries only a message. *)
Theorem createPrompt_mismatch_fails_before_fetch cl
    (params : CreatePromptParams) w :
  (type params = "chat" /\ isArray (prompt params) = false ->
   createPrompt cl params w
   = (Threw (Error "Error" "Chat prompts must be an array of messages"), w))
  /\ (type params = "text" /\ typeof_string (prompt params) = false ->
      createPrompt cl params w
      = (Threw (Error "Error" "Text prompts must be a string"), w)).
Proof.
  unfold createPrompt. split; intros [-> ->]; done.
Qed.

(** C10: with both credentials present, a configuration with
    [requestTimeout = 0] gives a client with the time-out 30000, and one
    with [maxRetries = 0] a client with 3 retries; cache options with
    [ttl = 0] give a cache with the default TTL 300. *)
Theorem zero_configuration_falls_back_to_defaults :
  (forall config : LangfuseConfig,
     publicKey config <> "" -> secretKey config <> "" ->
     exists cl, new (Json := Json) base64 config = inr cl
       /\ (Types.requestTimeout config = Some (JS.Num 0) ->
           requestTimeout cl = 30000)
       /\ (Types.maxRetries config = Some (JS.Num 0) -> maxRetries cl = 3))
  /\ (forall (T : Type) (options : Types.CacheOptions),
        Types.ttl options = Some (JS.Num 0) ->
        Cache.defaultTTL (Cache.new (T := T) (Some options)) = 300).
Proof.
  split.
  - intros config Hpk Hsk. unfold new.
    destruct (publicKey config) as [|c1 s1] eqn:Epk; [done|].
    destruct (secretKey config) as [|c2 s2] eqn:Esk; [done|].
    eexists. split; [reflexivity|]. simpl. split; by intros ->.
  - intros T options Httl. unfold Cache.new. simpl. by rewrite Httl.
Qed.

End ClientFacts.

(** ** The claims at sample inputs *)

(** The sleeps of three failed attempts are 1 s, 2 s and 4 s. *)
Example retry_log_three_failures :
  retry_log sample_client "GET" "/prompts" None 0 3
  = [fetch_event sample_client "GET" "/prompts" None;
     LangfuseAPIClient.Sleep 1000;
     fetch_event sample_client "GET" "/prompts" None;
     LangfuseAPIClient.Sleep 2000;
     fetch_event sample_client "GET" "/prompts" None;
     LangfuseAPIClient.Sleep 4000].
Proof. reflexivity. Qed.

Lemma server_errors_are_retried_with_backoff_witness :
  LangfuseAPIClient.request sample_client "GET" "/prompts" None 0 recovering
  = (LangfuseAPIClient.Returned "{}",
     advanced recovering 3
       (retry_log sample_client "GET" "/prompts" None 0 2
        ++ [fetch_event sample_client "GET" "/prompts" None])).
Proof.
  apply (proj1 (server_errors_are_retried_with_backoff sample_client
                  "GET" "/prompts" None recovering) 2%nat "{}").
  - intros i Hi. exists unavailable.
    destruct i as [|[|i]]; [split; [reflexivity|simpl; lia]..|lia].
  - exists found. split_and!; reflexivity.
  - simpl. lia.
Defined.

(** C1, as stated, fails: with [retryCount = 0 < 3 = maxRetries], a
    request that times out throws status 408 after one call of [fetch];
    the log has no sleep of 1000 ms and no second attempt. *)
Lemma timeout_is_not_retried :
  let run := LangfuseAPIClient.request sample_client "GET" "/prompts" None 0
               timing_out in
  0 < LangfuseAPIClient.maxRetries sample_client
  /\ run.1 = LangfuseAPIClient.Threw (Types.APIError 408 "Request timeout" None)
  /\ LangfuseAPIClient.calls run.2 = 1%nat
  /\ LangfuseAPIClient.log run.2
     = [fetch_event sample_client "GET" "/prompts" None].
Proof. vm_compute. split_and!; reflexivity. Qed.

Lemma timeout_surfaces_without_retry_witness :
  LangfuseAPIClient.request sample_client "GET" "/prompts" None 0 timing_out
  = (LangfuseAPIClient.Threw (Types.APIError 408 "Request timeout" None),
     advanced timing_out 1 [fetch_event sample_client "GET" "/prompts" None]).
Proof.
  apply (timeout_surfaces_without_retry sample_client "GET" "/prompts" None
           0 timing_out "This operation was aborted").
  reflexivity.
Defined.

Lemma rate_limit_and_auth_errors_are_not_retried_witness :
  LangfuseAPIClient.request sample_client "GET" "/prompts" None 0
    (throttled (Some "30"))
  = (LangfuseAPIClient.Threw
       (Types.RateLimitError (JS.Num 30) "Rate limit exceeded"),
     advanced (throttled (Some "30")) 1
       [fetch_event sample_client "GET" "/prompts" None]).
Proof.
  apply (proj1 (rate_limit_and_auth_errors_are_not_retried sample_client
                  "GET" "/prompts" None 0 (throttled (Some "30"))
                  (rate_limited (Some "30")) eq_refl)).
  reflexivity.
Defined.

Lemma unparsable_retry_after_gives_NaN_witness :
  (LangfuseAPIClient.request sample_client "GET" "/prompts" None 0
     (throttled (Some "Wed, 21 Oct 2015 07:28:00 GMT"))).1
  = LangfuseAPIClient.Threw (Types.RateLimitError JS.NaN "Rate limit exceeded").
Proof.
  apply (unparsable_retry_after_gives_NaN sample_client "GET" "/prompts" None
           0 (throttled (Some "Wed, 21 Oct 2015 07:28:00 GMT"))
           (rate_limited (Some "Wed, 21 Oct 2015 07:28:00 GMT")));
    reflexivity.
Defined.

(** C6, as stated, fails in the kind of the error: a chat prompt with a
    string content makes [createPrompt] throw a plain [Error], not a
    [ValidationError] with a field and a constraint. *)
Lemma createPrompt_mismatch_is_a_plain_error :
  let run := LangfuseAPIClient.createPrompt sample_client mismatched_chat
               timing_out in
  run.1 = LangfuseAPIClient.Threw
            (Types.Error "Error" "Chat prompts must be an array of messages")
  /\ ~ exists field constraint,
         run.1 = LangfuseAPIClient.Threw
                   (Types.ValidationError field constraint).
Proof.
  split; [reflexivity|]. intros (field & constraint & H). discriminate H.
Qed.

Lemma createPrompt_mismatch_fails_before_fetch_witness :
  LangfuseAPIClient.createPrompt sample_client mismatched_chat timing_out
  = (LangfuseAPIClient.Threw
       (Types.Error "Error" "Chat prompts must be an array of messages"),
     timing_out).
Proof.
  apply (proj1 (createPrompt_mismatch_fails_before_fetch sample_client
                  mismatched_chat timing_out)).
  split; reflexivity.
Defined.

Lemma zero_configuration_falls_back_to_defaults_witness :
  (exists cl,
     LangfuseAPIClient.new (Json := string) id zero_config = inr cl
     /\ LangfuseAPIClient.requestTimeout cl = 30000
     /\ LangfuseAPIClient.maxRetries cl = 3)
  /\ Cache.defaultTTL
       (Cache.new (T := string)
          (Some {| Types.ttl := Some (JS.Num 0); Types.keyPrefix := None |}))
     = 300.
Proof.
  destruct (@zero_configuration_falls_back_to_defaults string id)
    as [Hclient Hcache].
  split.
  - destruct (Hclient zero_config) as (cl & Hnew & Htimeout & Hretries);
      [discriminate..|].
    exists cl. split_and!; [exact Hnew|by apply Htimeout|by apply Hretries].
  - apply Hcache. reflexivity.
Defined.

(** ** The repository's unit tests of the cache, replayed on the model *)

Example test_store_and_retrieve :
  (Cache.get 0 "key1" (Cache.set 0 "key1" "value1" None (Cache.new None))).1
  = Some "value1".
Proof. reflexivity. Qed.

Example test_missing_key :
  (Cache.get 0 "missing" (Cache.new (T := string) None)).1 = None.
Proof. reflexivity. Qed.

Example test_delete :
  let deleted := Cache.delete "key1"
                   (Cache.set 0 "key1" "value1" None (Cache.new None)) in
  deleted.1 = true /\ (Cache.get 0 "key1" deleted.2).1 = None.
Proof. split; reflexivity. Qed.

Example test_clear :
  Cache.size (Cache.clear tested_cache) = 0%nat.
Proof. reflexivity. Qed.

Example test_custom_ttl_over_default :
  (Cache.get 1100 "key1"
     (Cache.set 0 "key1" "value1" (Some (JS.Num 2)) tested_cache)).1
  = Some "value1".
Proof. reflexivity. Qed.

Example test_pattern_invalidation :
  exists c',
    Cache.invalidatePattern (H := RegExp.Fragment.engine) "prompt:" tested_cache
      = JS.Ok c'
    /\ (Cache.get 0 "prompt:v1" c').1 = None
    /\ (Cache.get 0 "prompt:v2" c').1 = None
    /\ (Cache.get 0 "other:v1" c').1 = Some "value3".
Proof. eexists. split_and!; reflexivity. Qed.

Example test_cleanup :
  let swept := Cache.cleanup 1500
                 (Cache.set 0 "key2" "value2" (Some (JS.Num 2))
                    (Cache.set 0 "key1" "value1" (Some (JS.Num 1))
                       (Cache.new None))) in
  Cache.size swept = 1%nat /\ (Cache.get 1500 "key2" swept).1 = Some "value2".
Proof. split; reflexivity. Qed.

(** [parseInt] and the pattern fragment on a few inputs. *)
Example parseInt_samples :
  JS.parseInt "60" = JS.Num 60
  /\ JS.parseInt "  -12abc" = JS.Num (-12)
  /\ JS.parseInt "0x1f" = JS.Num 31
  /\ JS.parseInt "abc" = JS.NaN
  /\ JS.parseInt "" = JS.NaN.
Proof. split_and!; reflexivity. Qed.

Example pattern_samples :
  RegExp.Fragment.parse "a+b"
    = JS.Ok [(RegExp.Fragment.AChar "a", RegExp.Fragment.OneOrMore);
             (RegExp.Fragment.AChar "b", RegExp.Fragment.One)]
  /\ RegExp.Fragment.parse "c++" = JS.Raise "SyntaxError"
  /\ RegExp.Fragment.parse "(" = JS.NotModelled
  /\ RegExp.test (Engine := RegExp.Fragment.engine)
       [(RegExp.Fragment.AChar "a", RegExp.Fragment.OneOrMore);
        (RegExp.Fragment.AChar "b", RegExp.Fragment.One)] "xaab" = true.
Proof. split_and!; reflexivity. Qed.

(** * Further properties of the cache *)

Section CacheOperations.
Context {T : Type}.
Implicit Types (c : Cache.t T) (e : Types.CacheEntry T).

Lemma append_inj_r (p a b : string) : p +:+ a = p +:+ b -> a = b.
Proof. induction p as [|x p IH]; simpl; [done|]. intros [= H]. by apply IH. Qed.

Lemma cache_eq c1 c2 :
  Cache.cache c1 = Cache.cache c2 ->
  Cache.defaultTTL c1 = Cache.defaultTTL c2 ->
  Cache.keyPrefix c1 = Cache.keyPrefix c2 ->
  c1 = c2.
Proof. destruct c1, c2; simpl; by intros -> -> ->. Qed.

Lemma cleanup_filter (now : Z) c :
  Cache.cache (Cache.cleanup now c)
  = filter (fun ke => now <= Types.expiresAt ke.2) (Cache.cache c).
Proof.
  apply map_eq. intros k. rewrite cleanup_lookup, map_lookup_filter.
  destruct (Cache.cache c !! k) as [e|]; simpl; [|done].
  destruct (Z.ltb_spec (Types.expiresAt e) now).
  - rewrite option_guard_False; [done|simpl; lia].
  - rewrite option_guard_True; [done|simpl; lia].
Qed.

(** X1: [delete(key)] answers [true] exactly when an entry, live or
    expired, was stored under the prefixed key; afterwards [get(key)] is
    absent at every time, the size has dropped by one if something was
    stored, and every other stored entry is as it was. *)
Theorem delete_removes_exactly_its_key (key : string) c :
  ((Cache.delete key c).1 = true <->
     is_Some (Cache.cache c !! Cache.fullKey c key))
  /\ (forall now, (Cache.get now key (Cache.delete key c).2).1 = None)
  /\ (forall k, k <> Cache.fullKey c key ->
        Cache.cache (Cache.delete key c).2 !! k = Cache.cache c !! k)
  /\ Cache.size c
     = (Cache.size (Cache.delete key c).2
        + if (Cache.delete key c).1 then 1 else 0)%nat.
Proof.
  split_and!.
  - unfold Cache.delete; simpl. apply bool_decide_eq_true.
  - intros now. unfold Cache.get, Cache.delete; simpl.
    change (Cache.fullKey _ key) with (Cache.fullKey c key).
    by rewrite lookup_delete_eq.
  - intros k Hk. unfold Cache.delete; simpl. by apply lookup_delete_ne.
  - unfold Cache.delete, Cache.size; simpl.
    destruct (Cache.cache c !! Cache.fullKey c key) as [e|] eqn:He.
    + rewrite bool_decide_eq_true_2 by eauto.
      rewrite map_size_delete_Some by eauto.
      pose proof (map_size_ne_0_lookup_2 _ _ (mk_is_Some _ _ He)). lia.
    + rewrite bool_decide_eq_false_2 by (by intros [? ?]).
      rewrite delete_id by done. lia.
Qed.


(** X3: [set(key, ...)] touches only its own key: for every other key,
    [get] returns what it returned before, at any time; the size grows by
    one exactly when nothing was stored under the key. *)
Theorem set_touches_only_its_key (now now' : Z) (key key' : string)
    (value : T) (ttl : option JS.number) c :
  (key' <> key ->
   (Cache.get now' key' (Cache.set now key value ttl c)).1
   = (Cache.get now' key' c).1)
  /\ Cache.size (Cache.set now key value ttl c)
     = if bool_decide (is_Some (Cache.cache c !! Cache.fullKey c key))
       then Cache.size c else S (Cache.size c).
Proof.
  split.
  - intros Hne. rewrite !get_value.
    change (Cache.fullKey (Cache.set now key value ttl c) key')
      with (Cache.fullKey c key').
    rewrite set_lookup, lookup_insert_ne; [done|].
    unfold Cache.fullKey. intros Heq%append_inj_r. done.
  - unfold Cache.size. rewrite set_lookup.
    destruct (Cache.cache c !! Cache.fullKey c key) as [e|] eqn:He.
    + rewrite bool_decide_eq_true_2 by eauto.
      by rewrite map_size_insert_Some.
    + rewrite bool_decide_eq_false_2 by (by intros [? ?]).
      by rewrite map_size_insert_None.
Qed.

Lemma set_lookup_effective (now : Z) (key : string) (value : T)
    (ttl : option JS.number) c :
  Cache.cache (Cache.set now key value ttl c)
  = <[Cache.fullKey c key :=
        Types.mkEntry value (now + effective_ttl ttl c * 1000)]>
      (Cache.cache c).
Proof.
  rewrite set_lookup. do 3 f_equal.
  destruct ttl as [[|z]|]; simpl; try done.
  case_bool_decide; subst; [done|]. by destruct (Z.eqb_spec z 0).
Qed.

(** X4: an entry stored by [set] at time [now] is returned by [get] at
    every time up to and including its expiry time
    [now + eff * 1000], and at no later time. *)
Theorem entry_is_served_through_its_ttl (now now' : Z) (key : string)
    (value : T) (ttl : option JS.number) c :
  (Cache.get now' key (Cache.set now key value ttl c)).1
  = if now' <=? now + effective_ttl ttl c * 1000 then Some value else None.
Proof.
  rewrite get_value.
  change (Cache.fullKey (Cache.set now key value ttl c) key)
    with (Cache.fullKey c key).
  rewrite set_lookup_effective.
  rewrite lookup_insert_eq. simpl.
  destruct (Z.ltb_spec (now + effective_ttl ttl c * 1000) now'),
    (Z.leb_spec now' (now + effective_ttl ttl c * 1000)); done || lia.
Qed.

(** X5: [cleanup()] is invisible to readers and composes: at the time of
    the clean-up or later, [get] returns for every key what it would have
    returned without it; it never grows the cache; a clean-up after a
    clean-up is the clean-up at the later of the two times. *)
Theorem cleanup_is_invisible_and_composes (now now' : Z) c :
  (forall key, now <= now' ->
     (Cache.get now' key (Cache.cleanup now c)).1 = (Cache.get now' key c).1)
  /\ (Cache.size (Cache.cleanup now c) <= Cache.size c)%nat
  /\ Cache.cleanup now' (Cache.cleanup now c)
     = Cache.cleanup (Z.max now now') c.
Proof.
  split_and!.
  - intros key Hle. rewrite !get_value.
    change (Cache.fullKey (Cache.cleanup now c) key)
      with (Cache.fullKey c key).
    rewrite cleanup_lookup.
    destruct (Cache.cache c !! Cache.fullKey c key) as [e|]; simpl; [|done].
    destruct (Z.ltb_spec (Types.expiresAt e) now); simpl;
      destruct (Z.ltb_spec (Types.expiresAt e) now'); done || lia.
  - unfold Cache.size. rewrite cleanup_filter.
    apply map_subseteq_size, map_filter_subseteq.
  - apply cache_eq; [|done..]. apply map_eq. intros k.
    rewrite !cleanup_lookup.
    destruct (Cache.cache c !! k) as [e|]; simpl; [|done].
    destruct (Z.ltb_spec (Types.expiresAt e) now); simpl;
      destruct (Z.ltb_spec (Types.expiresAt e) now'); simpl;
      destruct (Z.ltb_spec (Types.expiresAt e) (Z.max now now'));
      done || lia.
Qed.

End CacheOperations.

(** * Further properties of the cache registry *)

Section RegistryOperations.
Context {T : Type}.
Implicit Types (st : CacheManager.state T) (f : Cache.t T -> Cache.t T).

Lemma alter_all_lookup f (ls : list (string * CacheManager.loc))
    (h : gmap CacheManager.loc (Cache.t T)) (l : CacheManager.loc) :
  NoDup ls.*2 ->
  foldl (fun h nl => alter f nl.2 h) h ls !! l
  = if bool_decide (l ∈ ls.*2) then f <$> h !! l else h !! l.
Proof.
  revert h. induction ls as [|[n l'] ls IH]; intros h Hnd; [done|].
  apply NoDup_cons in Hnd as [Hfresh Hnd]. cbn [foldl fmap list_fmap snd].
  rewrite IH by done. simpl in Hfresh.
  destruct (decide (l = l')) as [->|Hne].
  - rewrite (bool_decide_eq_false_2 (l' ∈ ls.*2)) by done.
    rewrite bool_decide_eq_true_2 by left.
    by rewrite lookup_alter_eq.
  - rewrite lookup_alter_ne by done.
    assert (bool_decide (l ∈ l' :: ls.*2) = bool_decide (l ∈ ls.*2)) as ->;
      [|done].
    apply bool_decide_ext. rewrite elem_of_cons. split; [|by right].
    by intros [?|?].
Qed.

Lemma for_each_cache_registered f st (name : string) (l : CacheManager.loc) :
  registry_wf st ->
  CacheManager.caches st !! name = Some l ->
  CacheManager.heap (CacheManager.for_each_cache f st) !! l
  = f <$> CacheManager.heap st !! l.
Proof.
  intros [_ Hinj] Hl. unfold CacheManager.for_each_cache; simpl.
  rewrite alter_all_lookup.
  - rewrite bool_decide_eq_true_2; [done|].
    apply list_elem_of_fmap. exists (name, l). split; [done|].
    by apply elem_of_map_to_list.
  - apply NoDup_fmap_2_strong; [|apply NoDup_map_to_list].
    intros [n1 l1] [n2 l2] H1%elem_of_map_to_list H2%elem_of_map_to_list.
    simpl. intros <-. f_equal. by eapply Hinj.
Qed.

Lemma reachable_wf (acts : list (CacheManager.action (T := T))) :
  registry_wf (CacheManager.run acts CacheManager.new).
Proof. apply run_wf, new_wf. Qed.

(** X6: in every state its use can bring a registry to, [clearAll()]
    empties each registered cache and nothing else of it (default TTL and
    prefix stay), and deregisters nothing: every name still leads to the
    same object, which [getCache] returns. *)
Theorem clearAll_empties_and_keeps_registrations
    (acts : list (CacheManager.action (T := T))) (name : string)
    (options : option Types.CacheOptions) (l : CacheManager.loc) :
  let st := CacheManager.run acts CacheManager.new in
  CacheManager.caches st !! name = Some l ->
  exists c,
    CacheManager.heap st !! l = Some c
    /\ CacheManager.heap (CacheManager.clearAll st) !! l
       = Some (Cache.with_cache c ∅)
    /\ CacheManager.getCache name options (CacheManager.clearAll st)
       = (Some l, CacheManager.clearAll st).
Proof.
  intros st Hl. pose proof (reachable_wf acts) as Hwf. fold st in Hwf.
  destruct (proj1 Hwf name l Hl) as [c Hc].
  exists c. split_and!; [done| |by apply getCache_registered].
  unfold CacheManager.clearAll.
  by rewrite (for_each_cache_registered _ _ name), Hc.
Qed.

(** X7: in every such state, the timer's sweep at time [now] replaces each
    registered cache by its clean-up: an entry is gone afterwards exactly
    when it was absent or its expiry time was before [now], and the
    surviving entries are unchanged; registrations are kept. *)
Theorem sweep_cleans_every_registered_cache
    (acts : list (CacheManager.action (T := T))) (now : Z) (name : string)
    (l : CacheManager.loc) :
  let st := CacheManager.run acts CacheManager.new in
  CacheManager.caches st !! name = Some l ->
  exists c c',
    CacheManager.heap st !! l = Some c
    /\ CacheManager.heap (CacheManager.sweep now st) !! l = Some c'
    /\ (forall k, Cache.cache c' !! k = unexpired now (Cache.cache c !! k))
    /\ Cache.defaultTTL c' = Cache.defaultTTL c
    /\ Cache.keyPrefix c' = Cache.keyPrefix c
    /\ CacheManager.caches (CacheManager.sweep now st)
       = CacheManager.caches st.
Proof.
  intros st Hl. pose proof (reachable_wf acts) as Hwf. fold st in Hwf.
  destruct (proj1 Hwf name l Hl) as [c Hc].
  exists c, (Cache.cleanup now c). split_and!; try done.
  - unfold CacheManager.sweep.
    by rewrite (for_each_cache_registered _ _ name), Hc.
  - intros k. apply cleanup_lookup.
Qed.

End RegistryOperations.

(** * Further properties of the API client *)

(** The body of [request] once more, under a name that the definitions
    generated with [request] do not hide. *)
Lemma request_body {Json : Type} (cl : LangfuseAPIClient.t)
    (method path : string) (data : option LangfuseAPIClient.request_data)
    (retryCount : nat) (w : LangfuseAPIClient.world Json) :
  LangfuseAPIClient.request cl method path data retryCount w =
  let '(f, w1) := LangfuseAPIClient.fetch cl method path data w in
  match LangfuseAPIClient.try_block f with
  | inl result => (result, w1)
  | inr e =>
      if String.eqb (Types.error_name e) "AbortError"
      then (LangfuseAPIClient.Threw (Types.APIError 408 "Request timeout" None),
            w1)
      else if LangfuseAPIClient.should_retry cl retryCount e
      then LangfuseAPIClient.request cl method path data (S retryCount)
             (LangfuseAPIClient.sleep (LangfuseAPIClient.backoff retryCount) w1)
      else (LangfuseAPIClient.Threw e, w1)
  end.
Proof. apply request_unfold. Qed.

Section RequestFacts.
Import Types LangfuseAPIClient.
Context {Json : Type}.
Implicit Types (cl : LangfuseAPIClient.t) (w : world Json) (e : error Json).

Lemma request_log_shape cl (method path : string)
    (data : option request_data) (retryCount : nat) w :
  exists k : nat,
    (k <= Z.to_nat (maxRetries cl - Z.of_nat retryCount))%nat
    /\ (request cl method path data retryCount w).2
       = advanced w (k + 1)
           (retry_log cl method path data retryCount k
            ++ [fetch_event cl method path data]).
Proof.
  remember (Z.to_nat (maxRetries cl - Z.of_nat retryCount)) as n eqn:Hn.
  revert retryCount w Hn.
  induction n as [|n IH]; intros retryCount w Hn;
    rewrite request_body, fetch_advanced;
    destruct (try_block (script w (calls w))) as [result|e];
    try (exists 0%nat; split; [lia|done]);
    destruct (String.eqb (error_name e) "AbortError");
    try (exists 0%nat; split; [lia|done]);
    destruct (should_retry cl retryCount e) eqn:Hretry;
    try (exists 0%nat; split; [lia|done]);
    apply andb_prop in Hretry as [Hlt%Z.ltb_lt _].
  - lia.
  - rewrite sleep_advanced.
    destruct (IH (S retryCount)
                (advanced w 1 ([fetch_event cl method path data]
                               ++ [Sleep (backoff retryCount)])))
      as (k & Hk & ->); [lia|].
    exists (S k). split; [lia|].
    by rewrite advanced_advanced.
Qed.




Lemma request_retryable cl (method path : string)
    (data : option request_data) (retryCount : nat) w :
  retryable (script w (calls w)) ->
  request cl method path data retryCount w
  = if Z.of_nat retryCount <? maxRetries cl
    then request cl method path data (S retryCount)
           (advanced w 1 [fetch_event cl method path data;
                          Sleep (2 ^ Z.of_nat retryCount * 1000)])
    else (final_outcome (script w (calls w)),
          advanced w 1 [fetch_event cl method path data]).
Proof.
  intros [(message & Hf)|(r & Hf & Hr)].
  - rewrite request_body, fetch_advanced, Hf. unfold final_outcome.
    cbn [try_block error_name]. unfold should_retry. cbn [error_name].
    change (String.eqb "FetchError" "AbortError") with false.
    change (String.eqb "FetchError" "FetchError") with true.
    cbv iota. rewrite orb_true_l, andb_true_r, sleep_advanced. done.
  - rewrite (request_server_error cl method path data retryCount w r Hf Hr).
    unfold final_outcome. by rewrite Hf, try_block_server_error.
Qed.

Lemma request_recovers_from_retryable cl (method path : string)
    (data : option request_data) (value : Json) (n retryCount : nat) w :
  (forall i, (i < n)%nat -> retryable (script w (calls w + i))) ->
  success_at w (calls w + n) value ->
  Z.of_nat retryCount + Z.of_nat n <= maxRetries cl ->
  request cl method path data retryCount w
  = (Returned value,
     advanced w (n + 1)
       (retry_log cl method path data retryCount n
        ++ [fetch_event cl method path data])).
Proof.
  revert retryCount w.
  induction n as [|n IH]; intros retryCount w Hfail Hok Hbudget.
  - apply (request_recovers cl method path data value 0); [|done..].
    intros i Hi. lia.
  - rewrite request_retryable
      by (specialize (Hfail 0%nat); rewrite Nat.add_0_r in Hfail;
          apply Hfail; lia).
    rewrite (proj2 (Z.ltb_lt _ _)) by lia.
    rewrite IH.
    + by rewrite advanced_advanced.
    + intros i Hi. simpl.
      replace (calls w + 1 + i)%nat with (calls w + S i)%nat by lia.
      apply Hfail. lia.
    + unfold success_at in *. simpl.
      by replace (calls w + 1 + n)%nat with (calls w + S n)%nat by lia.
    + lia.
Qed.

Lemma request_gives_up_on_retryable cl (method path : string)
    (data : option request_data) (n retryCount : nat) w :
  (forall i, retryable (script w (calls w + i))) ->
  Z.to_nat (maxRetries cl - Z.of_nat retryCount) = n ->
  request cl method path data retryCount w
  = (final_outcome (script w (calls w + n)),
     advanced w (n + 1)
       (retry_log cl method path data retryCount n
        ++ [fetch_event cl method path data])).
Proof.
  revert retryCount w.
  induction n as [|n IH]; intros retryCount w Hfail Hbudget;
    rewrite request_retryable
      by (specialize (Hfail 0%nat); by rewrite Nat.add_0_r in Hfail).
  - rewrite (proj2 (Z.ltb_ge _ _)) by lia. by rewrite Nat.add_0_r.
  - rewrite (proj2 (Z.ltb_lt _ _)) by lia.
    rewrite IH.
    + rewrite advanced_advanced. simpl.
      by replace (calls w + 1 + n)%nat with (calls w + S n)%nat by lia.
    + intros i. simpl.
      replace (calls w + 1 + i)%nat with (calls w + S i)%nat by lia.
      apply Hfail.
    + lia.
Qed.

(** X10: a [fetch] that rejects with an error named ["FetchError"] is
    retried exactly like a 5xx response, and the two may alternate: [n]
    such failures followed by a success, with [n <= maxRetries], return
    the success value after the sleeps 1 s, 2 s, 4 s, ...; failures for
    ever end after [maxRetries] retries with the outcome of the last
    attempt (the rejection itself, or the [APIError] of the last
    response).  A rejection with any other name but ["AbortError"] (a
    [TypeError], say) is not retried: the error is rethrown as it is after
    the single [fetch]. *)
Theorem network_errors_are_retried_by_name cl (method path : string)
    (data : option request_data) w :
  (forall (n : nat) (value : Json),
     (forall i, (i < n)%nat -> retryable (script w (calls w + i))) ->
     success_at w (calls w + n) value ->
     Z.of_nat n <= maxRetries cl ->
     request cl method path data 0 w
     = (Returned value,
        advanced w (n + 1)
          (retry_log cl method path data 0 n
           ++ [fetch_event cl method path data])))
  /\ ((forall i, retryable (script w (calls w + i))) ->
      request cl method path data 0 w
      = (final_outcome (script w (calls w + Z.to_nat (maxRetries cl))),
         advanced w (Z.to_nat (maxRetries cl) + 1)
           (retry_log cl method path data 0 (Z.to_nat (maxRetries cl))
            ++ [fetch_event cl method path data])))
  /\ (forall (retryCount : nat) (name message : string),
        script w (calls w) = Rejected name message ->
        name <> "AbortError" -> name <> "FetchError" ->
        request cl method path data retryCount w
        = (Threw (Error name message),
           advanced w 1 [fetch_event cl method path data])).
Proof.
  split_and!.
  - intros n value Hfail Hok Hn.
    apply request_recovers_from_retryable; [done..|lia].
  - intros Hfail. apply request_gives_up_on_retryable; [done|].
    f_equal. simpl. lia.
  - intros retryCount name message Hscript Habort Hfetch.
    rewrite request_body, fetch_advanced, Hscript.
    cbn [try_block error_name]. unfold should_retry. cbn [error_name is_server_error].
    apply String.eqb_neq in Habort, Hfetch.
    by rewrite Habort, Hfetch, andb_false_r.
Qed.

End RequestFacts.

(** * The validators *)

Section ValidationFacts.
Import Types Validation.

Lemma str_falsy_length (s : string) :
  JS.str_falsy s = (JSString.length s =? 0).
Proof. by destruct s. Qed.

Lemma for_each_passes {A : Type} (check : A -> verdict) (items : list A) :
  for_each check items = Passes <-> Forall (fun x => check x = Passes) items.
Proof.
  induction items as [|x items IH]; simpl.
  - split; [constructor|done].
  - rewrite Forall_cons. destruct (check x); [|split; [done|by intros [? _]]].
    rewrite IH. tauto.
Qed.

Lemma for_each_first_failure {A : Type} (check : A -> verdict)
    (before after : list A) (x : A) :
  Forall (fun y => check y = Passes) before ->
  check x <> Passes ->
  for_each check (before ++ x :: after) = check x.
Proof.
  intros Hbefore Hx. induction Hbefore as [|y before Hy _ IH]; simpl.
  - by destruct (check x).
  - by rewrite Hy.
Qed.

(** X11: [validatePromptName] accepts exactly the names of 1 to 255
    characters among letters, digits, [_], [-], [/] and [.]; it never
    throws the constraint "Prompt name cannot be empty", because the empty
    name is already rejected as "Prompt name is required". *)
Theorem validatePromptName_accepts_well_formed_names (name : string) :
  (validatePromptName name = Passes <-> well_formed_name name)
  /\ validatePromptName name <> Throws "name" "Prompt name cannot be empty"
  /\ validatePromptName "" = Throws "name" "Prompt name is required".
Proof.
  unfold validatePromptName, well_formed_name, JSString.one_or_more.
  rewrite str_falsy_length. split_and!; [| |done].
  - destruct (Z.eqb_spec (JSString.length name) 0) as [H0|H0];
      [split; [done|lia]|].
    destruct (Z.gtb_spec (JSString.length name) 255);
      [split; [done|lia]|].
    simpl. unfold JSString.length in *.
    destruct (JSString.all_in name_char name);
      simpl; split; try done; [intros _; split; [lia|done] | by intros [_ ?]].
  - destruct (JSString.length name =? 0); [done|].
    destruct (JSString.length name >? 255); [done|].
    by destruct (negb _).
Qed.

Lemma check_label_passes (label : string) :
  check_label label = Passes <-> well_formed_label label.
Proof.
  unfold check_label, well_formed_label, JSString.one_or_more.
  rewrite <- str_falsy_length.
  destruct (JS.str_falsy label) eqn:Hempty; rewrite str_falsy_length in Hempty.
  { apply Z.eqb_eq in Hempty. split; [done|lia]. }
  apply Z.eqb_neq in Hempty.
  destruct (Z.gtb_spec (JSString.length label) 50); [split; [done|lia]|].
  case_bool_decide as Hres.
  - split; [done|]. intros (_ & _ & H1 & H2).
    apply elem_of_cons in Hres as [?|Hres]; [done|].
    apply elem_of_cons in Hres as [?|Hres]; [done|].
    by apply elem_of_nil in Hres.
  - simpl. unfold JSString.length in *.
    destruct (JSString.all_in label_char label); simpl.
    + split; [|done]. intros _.
      split_and!; [lia|lia|done|intros Heq|intros Heq];
        apply Hres; rewrite Heq; [left|right; left].
    + split; [done|]. by intros (_ & ? & _).
Qed.

(** X12: [validateLabels] accepts a list exactly when every label has 1
    to 50 characters among letters, digits, [_] and [-] and is not
    [latest] or [all] in any letter case; on a list with a bad label it
    throws what the check of the first bad label throws; every list it
    accepts is accepted by [validateTags] too. *)
Theorem validateLabels_accepts_well_formed_labels (labels : list string) :
  (validateLabels labels = Passes <-> Forall well_formed_label labels)
  /\ (forall (before after : list string) (label : string),
        labels = (before ++ label :: after)%list ->
        Forall well_formed_label before ->
        ~ well_formed_label label ->
        validateLabels labels = check_label label
        /\ exists constraint, check_label label = Throws "labels" constraint)
  /\ (validateLabels labels = Passes -> validateTags labels = Passes).
Proof.
  unfold validateLabels, validateTags. split_and!.
  - rewrite for_each_passes. apply Forall_proper; [|done].
    intros label. apply check_label_passes.
  - intros before after label -> Hbefore Hbad.
    assert (check_label label <> Passes) as Hne
      by by rewrite check_label_passes.
    split.
    + apply for_each_first_failure; [|done].
      eapply Forall_impl; [exact Hbefore|]. intros l. apply check_label_passes.
    + revert Hne. unfold check_label.
      repeat match goal with |- context [if ?b then _ else _] => destruct b end;
        eauto; done.
  - rewrite !for_each_passes. intros Hall.
    eapply Forall_impl; [exact Hall|]. intros label.
    unfold check_label, check_tag.
    destruct (JSString.length label =? 0); [done|].
    by destruct (JSString.length label >? 50).
Qed.

End ValidationFacts.

Section ContentValidation.
Import Types Validation LangfuseAPIClient.
Context {Json : Type}.

Lemma check_message_passes (message : ChatMessage) :
  check_message message = Passes <-> well_formed_message message.
Proof.
  unfold check_message, well_formed_message.
  destruct (content message) as [|c s] eqn:Hc; simpl.
  - rewrite orb_true_r. split; [done|]. by intros [_ ?].
  - rewrite orb_false_r.
    destruct (role message) as [|r rs] eqn:Hr; simpl.
    + split; [done|]. intros [Hin _].
      repeat (apply elem_of_cons in Hin as [?|Hin]; [done|]).
      by apply elem_of_nil in Hin.
    + case_bool_decide; simpl; split; try done. by intros [? _].
Qed.

(** X13: [validatePromptContent] accepts a text prompt whose content is a
    string and a chat prompt whose content is an array of messages that
    each have one of the three roles and a non-empty content, and nothing
    else.  Whatever it accepts passes the shape check of the client's
    [createPrompt], which then issues the POST of the full parameter set;
    the converse fails: for a type other than [text] and [chat] the
    validator throws on the field [type], while [createPrompt] sends the
    request. *)
Theorem validated_content_reaches_the_network (cl : LangfuseAPIClient.t)
    (params : CreatePromptParams) (w : world Json) :
  (validatePromptContent (type params) (prompt params) = Passes <->
     (type params = "text" /\ exists s, prompt params = PString s)
     \/ (type params = "chat"
         /\ exists messages, prompt params = PArray messages
                             /\ Forall well_formed_message messages))
  /\ (validatePromptContent (type params) (prompt params) = Passes ->
      createPrompt cl params w
      = request cl "POST" "/prompts" (Some (CreateBody params)) 0 w)
  /\ (type params <> "text" -> type params <> "chat" ->
      validatePromptContent (type params) (prompt params)
        = Throws "type" "Prompt type must be text or chat"
      /\ createPrompt cl params w
         = request cl "POST" "/prompts" (Some (CreateBody params)) 0 w).
Proof.
  unfold validatePromptContent, createPrompt.
  destruct (String.eqb_spec (type params) "text") as [Htext|Htext];
    [|destruct (String.eqb_spec (type params) "chat") as [Hchat|Hchat]].
  - rewrite Htext. change (String.eqb "text" "chat") with false.
    cbn [andb].
    destruct (prompt params) as [s|messages|] eqn:Hp; simpl.
    + split_and!; [|done|done]. split; [|done]. intros _. left. eauto.
    + split_and!; [|done|done]. split; [done|].
      intros [[_ [s' [=]]]|[[=] _]].
    + split_and!; [|done|done]. split; [done|].
      intros [[_ [s' [=]]]|[[=] _]].
  - rewrite Hchat. cbn [andb].
    destruct (prompt params) as [s|messages|] eqn:Hp; simpl.
    + split_and!; [|done|done]. split; [done|].
      intros [[[=] _]|[_ (ms & [=] & _)]].
    + split_and!; [|done|done]. rewrite for_each_passes. split.
      * intros Hall. right. split; [done|]. exists messages. split; [done|].
        eapply Forall_impl; [exact Hall|]. intros m. apply check_message_passes.
      * intros [[[=] _]|[_ (ms & [= <-] & Hall)]].
        eapply Forall_impl; [exact Hall|]. intros m. apply check_message_passes.
    + split_and!; [|done|done]. split; [done|].
      intros [[[=] _]|[_ (ms & [=] & _)]].
  - cbn [andb]. split_and!; [|done|done].
    split; [done|]. by intros [[? _]|[? _]].
Qed.

End ContentValidation.

(** * Prompt names as invalidation patterns *)

Lemma validated_name_is_well_formed (name : string) :
  Validation.validatePromptName name = Validation.Passes ->
  1 <= JSString.length name <= 255
  /\ JSString.all_in Validation.name_char name = true.
Proof.
  unfold Validation.validatePromptName, JSString.one_or_more.
  rewrite str_falsy_length.
  destruct (Z.eqb_spec (JSString.length name) 0); [done|].
  destruct (Z.gtb_spec (JSString.length name) 255); [done|].
  unfold JSString.length in *.
  destruct (JSString.all_in Validation.name_char name);
    rewrite ?andb_false_r; simpl; [|done].
  intros _. split; [lia|done].
Qed.

Section NamesAsPatterns.
Import RegExp RegExp.Fragment.

Lemma name_char_as_pattern (c : ascii) :
  Validation.name_char c = true ->
  bool_decide (c = "\"%char) = false
  /\ token_of_char c = (if bool_decide (c = "."%char) then TDot else TChar c)
  /\ atom_matches (name_atom c) c = true
  /\ (bool_decide (c = "."%char) = false -> is_syntax_char c = false).
Proof.
  destruct c as [[] [] [] [] [] [] [] []]; vm_compute; intros H;
    try discriminate H; repeat split; auto.
Qed.

Lemma terms_unquantified (t q : token) (ts : list token)
    (a : ascii * bool) :
  (t = TChar a.1 /\ a.2 = false \/ t = TDot /\ a.2 = true) ->
  quantifier_of q = None ->
  terms (t :: q :: ts)
  = cons_term ((if a.2 then ADot else AChar a.1), One) (terms (q :: ts)).
Proof.
  destruct a as [c []]; simpl; intros [[-> [=]]|[-> [=]]] Hq;
    destruct q; try discriminate Hq; reflexivity.
Qed.

Lemma parse_name (name : string) :
  JSString.all_in Validation.name_char name = true ->
  parse name = JS.Ok (name_terms name).
Proof.
  unfold parse. induction name as [|c name IH]; [done|].
  simpl. intros [Hc Hname]%andb_prop.
  destruct (name_char_as_pattern c Hc) as (Hbs & Htok & _).
  rewrite Hbs, Htok. specialize (IH Hname).
  destruct name as [|d name].
  { unfold name_atom. by case_bool_decide. }
  simpl in Hname. apply andb_prop in Hname as [Hd _].
  destruct (name_char_as_pattern d Hd) as (Hbs' & Htok' & _).
  revert IH. simpl tokens. rewrite Hbs', Htok'. intros IH.
  rewrite (terms_unquantified _ _ _ (c, bool_decide (c = "."%char))).
  - rewrite IH. unfold name_atom. cbn [fst snd cons_term]. done.
  - cbn [fst snd].
    destruct (bool_decide (c = "."%char)); [right|left]; split; reflexivity.
  - by destruct (bool_decide (d = "."%char)).
Qed.

Lemma match_here_name (name rest : string) :
  JSString.all_in Validation.name_char name = true ->
  match_here (name_terms name) (name +:+ rest) = true.
Proof.
  induction name as [|c name IH]; [done|].
  simpl. intros [Hc Hname]%andb_prop.
  destruct (name_char_as_pattern c Hc) as (_ & _ & Hmatch & _).
  rewrite Hmatch. by apply IH.
Qed.

Lemma search_here (p : list term) (s : string) :
  match_here p s = true -> search p s = true.
Proof. destruct s; simpl; by intros ->. Qed.

Lemma search_cons (p : list term) (c : ascii) (s : string) :
  search p (String c s) = match_here p (String c s) || search p s.
Proof. reflexivity. Qed.

Lemma search_name (name key : string) :
  JSString.all_in Validation.name_char name = true ->
  contains key name ->
  search (name_terms name) key = true.
Proof.
  intros Hname (l & r & ->). induction l as [|d l IH].
  - exact (search_here _ _ (match_here_name name r Hname)).
  - change (search (name_terms name) (String d (l +:+ name +:+ r)) = true).
    rewrite search_cons, IH. apply orb_true_r.
Qed.

Lemma dotless_name_is_literal (name : string) :
  JSString.all_in Validation.name_char name = true ->
  (forall l r, name <> l +:+ "." +:+ r) ->
  literal name = true.
Proof.
  induction name as [|c name IH]; [done|].
  simpl. intros [Hc Hname]%andb_prop Hdot.
  destruct (name_char_as_pattern c Hc) as (_ & _ & _ & Hsyntax).
  rewrite Hsyntax, IH; [done|done| |].
  - intros l r ->. by apply (Hdot (String c l) r).
  - apply bool_decide_eq_false. intros ->. by apply (Hdot "" name).
Qed.

(** X14: for every name that [validatePromptName] accepts,
    [invalidatePattern(name)], as the tool handlers call it after a
    mutation, does not throw, removes every entry whose key contains the
    name, and changes no entry that it keeps; when the name has no dot it
    removes no other entry.  (With a dot it may: the dot matches any
    character.) *)
Theorem validated_name_invalidates_its_keys {T : Type} (name : string)
    (c : Cache.t T) :
  Validation.validatePromptName name = Validation.Passes ->
  exists c',
    Cache.invalidatePattern (H := engine) name c = JS.Ok c'
    /\ (forall k, contains k name -> Cache.cache c' !! k = None)
    /\ (forall k e, Cache.cache c' !! k = Some e ->
          Cache.cache c !! k = Some e)
    /\ ((forall l r, name <> l +:+ "." +:+ r) ->
        forall k, ~ contains k name ->
          Cache.cache c' !! k = Cache.cache c !! k).
Proof.
  intros [_ Hname]%validated_name_is_well_formed.
  destruct (invalidatePattern_compiled (H := engine) name (name_terms name) c
              (parse_name name Hname)) as (c' & Hrun & Hlookup & _).
  exists c'. split_and!; [done| | |].
  - intros k Hk. rewrite Hlookup. simpl. by rewrite search_name.
  - intros k e. rewrite Hlookup. by destruct (test _ k).
  - intros Hdot k Hk. rewrite Hlookup. simpl.
    destruct (search (name_terms name) k) eqn:Hs; [|done].
    exfalso. apply Hk, search_literal.
    pose proof (parse_literal name (dotless_name_is_literal name Hname Hdot))
      as Hparse.
    rewrite (parse_name name Hname) in Hparse. injection Hparse as <-. done.
Qed.

End NamesAsPatterns.

(** The name [a.b] evicts the key [axb], which does not contain it. *)
Example dotted_name_evicts_more :
  Validation.validatePromptName "a.b" = Validation.Passes
  /\ ~ RegExp.contains "axb" "a.b"
  /\ exists c',
       Cache.invalidatePattern (H := RegExp.Fragment.engine) "a.b"
         dotless_cache = JS.Ok c'
       /\ Cache.cache dotless_cache !! "axb" <> None
       /\ Cache.cache c' !! "axb" = None.
Proof.
  split_and!; [reflexivity| |eexists; split_and!; [reflexivity|done|reflexivity]].
  intros (l & r & H).
  destruct l as [|? [|? [|? [|? l]]]]; try discriminate H;
    destruct r; discriminate H.
Qed.

(** * Mustache variables *)

Section TemplateFacts.
Import Types Template.

Lemma scan_cons (c : ascii) (s' : string) :
  scan (String c s') =
  match match_at (String c s') with
  | Some (inner, rest) => Hole inner :: scan rest
  | None => Char c :: scan s'
  end.
Proof.
  rewrite scan_equation_2.
  destruct (inspect (match_at (String c s'))) as [[[inner rest]|] H];
    simpl; by rewrite H.
Qed.

Lemma source_scan (s : string) : source (scan s) = s.
Proof.
  remember (String.length s) as n eqn:Hn. revert s Hn.
  induction (lt_wf n) as [n _ IH]. intros s ->.
  destruct s as [|c s']; [by rewrite scan_equation_1|].
  rewrite scan_cons.
  destruct (match_at (String c s')) as [[inner rest]|] eqn:Hm.
  - pose proof (match_at_shorter _ _ _ Hm) as Hlt.
    apply match_at_Some in Hm as [-> _].
    cbn [source]. by rewrite (IH _ Hlt rest eq_refl).
  - cbn [source]. rewrite (IH (String.length s')); [done|simpl; lia|done].
Qed.

Lemma elem_of_foldl_add (x : string) (new variables : list string) :
  x ∈ foldl add variables new <-> x ∈ variables \/ x ∈ new.
Proof.
  revert variables. induction new as [|y new IH]; intros variables; simpl.
  - rewrite elem_of_nil. tauto.
  - rewrite IH, elem_of_cons. unfold add. case_bool_decide as Hy.
    + split; [tauto|]. intros [?|[->|?]]; tauto.
    + rewrite elem_of_app, list_elem_of_singleton. tauto.
Qed.

Lemma NoDup_foldl_add (new variables : list string) :
  NoDup variables -> NoDup (foldl add variables new).
Proof.
  revert variables. induction new as [|y new IH]; intros variables Hnd;
    [done|].
  simpl. apply IH. unfold add. case_bool_decide as Hy; [done|].
  apply NoDup_app. split_and!; [done| |apply NoDup_singleton].
  intros z Hz ->%list_elem_of_singleton. done.
Qed.

Lemma elem_of_extractVariables (x : string) (prompt : prompt_value) :
  x ∈ extractVariables prompt <->
  match prompt with
  | PString text => x ∈ names (scan text)
  | PArray messages =>
      exists message, message ∈ messages
                      /\ x ∈ names (scan (content message))
  | POther => False
  end.
Proof.
  destruct prompt as [text|messages|]; simpl.
  - unfold extract_from. rewrite elem_of_foldl_add, elem_of_nil. tauto.
  - assert (forall variables,
              x ∈ foldl (fun variables message =>
                           extract_from variables (content message))
                    variables messages
              <-> x ∈ variables
                  \/ exists message, message ∈ messages
                        /\ x ∈ names (scan (content message))) as Hgen.
    { induction messages as [|m messages IH]; intros variables; simpl.
      - split; [tauto|]. intros [?|(m & Hm & _)]; [done|].
        by apply elem_of_nil in Hm.
      - rewrite IH. unfold extract_from. rewrite elem_of_foldl_add. split.
        + intros [[?|?]|(m' & ? & ?)]; [tauto| |].
          * right. exists m. split; [left|done].
          * right. exists m'. split; [by right|done].
        + intros [?|(m' & [->|?]%elem_of_cons & ?)]; [tauto|tauto|].
          right. eauto. }
    rewrite Hgen, elem_of_nil. tauto.
  - apply elem_of_nil.
Qed.

Lemma render_agree (v1 v2 : gmap string string) (pieces : list piece) :
  (forall x, x ∈ names pieces -> v1 !! x = v2 !! x) ->
  render v1 pieces = render v2 pieces.
Proof.
  induction pieces as [|[c|inner] pieces IH]; intros Hagree; simpl.
  - done.
  - by rewrite IH.
  - unfold replacement. rewrite (Hagree (JSString.trim inner)) by (simpl; left).
    rewrite IH; [done|]. intros x Hx. apply Hagree. simpl. by right.
Qed.

Lemma append_assoc (a b c : string) : (a +:+ b) +:+ c = a +:+ (b +:+ c).
Proof.
  induction a as [|x a IH]; [done|].
  change (String x ((a +:+ b) +:+ c) = String x (a +:+ (b +:+ c))).
  by rewrite IH.
Qed.

Lemma render_source (v : gmap string string) (pieces : list piece) :
  (forall x, x ∈ names pieces -> v !! x = None /\ x ∉ inherited) ->
  render v pieces = JS.Ok (source pieces).
Proof.
  induction pieces as [|[c|inner] pieces IH]; intros Hnone; simpl.
  - done.
  - by rewrite IH.
  - unfold replacement.
    destruct (Hnone (JSString.trim inner)) as [-> Hin]; [simpl; left|].
    rewrite bool_decide_eq_false_2 by done. simpl.
    rewrite IH; [|intros x Hx; apply Hnone; simpl; by right].
    simpl. by rewrite !append_assoc.
Qed.

(** X15: [compilePrompt] looks only at the variables that
    [extractVariables] reports for the prompt: two variable objects that
    agree on them give the same result, so that any further entries are
    ignored. *)
Theorem compile_depends_only_on_extracted_variables (prompt : prompt_value)
    (v1 v2 : gmap string string) :
  (forall x, x ∈ extractVariables prompt -> v1 !! x = v2 !! x) ->
  compilePrompt prompt v1 = compilePrompt prompt v2.
Proof.
  intros Hagree. destruct prompt as [text|messages|]; simpl; [| |done].
  - unfold replaceVariables. rewrite (render_agree v1 v2); [done|].
    intros x Hx. apply Hagree. by apply elem_of_extractVariables.
  - f_equal.
    assert (forall m, m ∈ messages ->
              replaceVariables (content m) v1 = replaceVariables (content m) v2)
      as Hsame.
    { intros m Hm. unfold replaceVariables. apply render_agree.
      intros x Hx. apply Hagree, elem_of_extractVariables. eauto. }
    clear Hagree. induction messages as [|m messages IH]; [done|].
    simpl. rewrite (Hsame m) by left. rewrite IH; [done|].
    intros m' Hm'. apply Hsame. by right.
Qed.

(** X16: a prompt none of whose variables is available (neither an own
    entry of the variable object nor a member inherited from
    [Object.prototype]) is returned unchanged by [compilePrompt]: a
    placeholder without a value is kept as it is written, spaces
    included, and a prompt without placeholders is never altered. *)
Theorem compile_keeps_unavailable_placeholders (prompt : prompt_value)
    (v : gmap string string) :
  prompt <> POther ->
  (forall x, x ∈ extractVariables prompt -> v !! x = None /\ x ∉ inherited) ->
  compilePrompt prompt v = JS.Ok prompt.
Proof.
  intros Hshape Hnone. destruct prompt as [text|messages|]; simpl; [| |done].
  - unfold replaceVariables. rewrite render_source, source_scan; [done|].
    intros x Hx. apply Hnone. by apply elem_of_extractVariables.
  - assert (forall m, m ∈ messages ->
              replaceVariables (content m) v = JS.Ok (content m)) as Hsame.
    { intros m Hm. unfold replaceVariables.
      rewrite render_source, source_scan; [done|].
      intros x Hx. apply Hnone, elem_of_extractVariables. eauto. }
    clear Hnone Hshape. induction messages as [|m messages IH]; [done|].
    simpl. rewrite (Hsame m) by left. simpl.
    assert (forall m', m' ∈ messages ->
              replaceVariables (content m') v = JS.Ok (content m')) as Hrest
      by (intros m' Hm'; apply Hsame; by right).
    specialize (IH Hrest).
    destruct (map_messages _ messages) as [ms'| |]; try done.
    simpl in *. injection IH as ->. by destruct m.
Qed.


Lemma trim_end_idempotent (s : string) :
  JSString.trim_end (JSString.trim_end s) = JSString.trim_end s.
Proof.
  induction s as [|c s IH]; [done|]. simpl.
  destruct (JSString.trim_end s) as [|d r] eqn:Hr.
  - destruct (JS.is_white_space c) eqn:Hc; [done|]. simpl. by rewrite Hc.
  - change (JSString.trim_end (String c (String d r)))
      with (match JSString.trim_end (String d r) with
            | EmptyString => if JS.is_white_space c then EmptyString
                             else String c EmptyString
            | rest => String c rest
            end).
    by rewrite IH.
Qed.

Lemma trim_start_head (s : string) :
  JS.trim_start s = EmptyString
  \/ exists c r, JS.trim_start s = String c r /\ JS.is_white_space c = false.
Proof.
  induction s as [|c s IH]; [by left|]. simpl.
  destruct (JS.is_white_space c) eqn:Hc; [done|]. right. eauto.
Qed.

Lemma trim_end_head (c : ascii) (r : string) :
  JS.is_white_space c = false ->
  exists r', JSString.trim_end (String c r) = String c r'.
Proof.
  intros Hc. simpl. destruct (JSString.trim_end r); [|eauto].
  rewrite Hc. eauto.
Qed.

Lemma trim_idempotent (s : string) :
  JSString.trim (JSString.trim s) = JSString.trim s.
Proof.
  unfold JSString.trim.
  destruct (trim_start_head s) as [->|(c & r & -> & Hc)]; [done|].
  destruct (trim_end_head c r Hc) as [r' Hr']. rewrite Hr'.
  simpl JS.trim_start. rewrite Hc, <- Hr'. apply trim_end_idempotent.
Qed.

Lemma names_trimmed (pieces : list piece) (x : string) :
  x ∈ names pieces -> JSString.trim x = x.
Proof.
  induction pieces as [|[c|inner] pieces IH]; simpl.
  - by intros ?%elem_of_nil.
  - done.
  - intros [->|?]%elem_of_cons; [apply trim_idempotent|by apply IH].
Qed.

(** X17: the list that [extractVariables] returns has no duplicate, and
    each of its names is trimmed: it has no white space at either end,
    however the placeholder was spaced in the prompt. *)
Theorem extracted_variables_are_distinct_and_trimmed (prompt : prompt_value) :
  NoDup (extractVariables prompt)
  /\ (forall x, x ∈ extractVariables prompt -> JSString.trim x = x).
Proof.
  split.
  - destruct prompt as [text|messages|]; simpl.
    + apply NoDup_foldl_add, NoDup_nil_2.
    + generalize (NoDup_nil_2 (A := string)). generalize (@nil string).
      induction messages as [|m messages IH]; intros variables Hnd; [done|].
      simpl. apply IH. by apply NoDup_foldl_add.
    + apply NoDup_nil_2.
  - intros x Hx%elem_of_extractVariables.
    destruct prompt as [text|messages|]; [|destruct Hx as (m & _ & Hx)|done];
      by eapply names_trimmed.
Qed.

End TemplateFacts.

(** The repository's unit tests of the validation utilities, replayed on
    the model. *)
Example test_extract_from_text :
  Template.extractVariables
    (Types.PString "Hello {{name}}, welcome to {{place}}!")
  = ["name"; "place"].
Proof. reflexivity. Qed.

Example test_extract_from_chat :
  Template.extractVariables
    (Types.PArray [Types.mkMessage "system" "You are {{role}}";
                   Types.mkMessage "user" "My name is {{userName}}"])
  = ["role"; "userName"].
Proof. reflexivity. Qed.

Example test_extract_duplicates :
  Template.extractVariables
    (Types.PString "{{name}} is {{name}} and lives in {{city}}")
  = ["name"; "city"].
Proof. reflexivity. Qed.

Example test_extract_none :
  Template.extractVariables (Types.PString "Hello world!") = [].
Proof. reflexivity. Qed.

Example test_compile_text :
  Template.compilePrompt
    (Types.PString "Hello {{name}}, welcome to {{place}}!")
    (<["name" := "Alice"]> (<["place" := "Wonderland"]> ∅))
  = JS.Ok (Types.PString "Hello Alice, welcome to Wonderland!").
Proof. reflexivity. Qed.

Example test_compile_chat :
  Template.compilePrompt
    (Types.PArray [Types.mkMessage "system" "You are {{role}}";
                   Types.mkMessage "user" "My name is {{userName}}"])
    (<["role" := "an assistant"]> (<["userName" := "Bob"]> ∅))
  = JS.Ok (Types.PArray [Types.mkMessage "system" "You are an assistant";
                         Types.mkMessage "user" "My name is Bob"]).
Proof. reflexivity. Qed.

Example test_compile_keeps_unmatched :
  Template.compilePrompt
    (Types.PString "Hello {{name}}, your ID is {{id}}")
    (<["name" := "Alice"]> ∅)
  = JS.Ok (Types.PString "Hello Alice, your ID is {{id}}").
Proof. reflexivity. Qed.

Example test_prompt_names :
  Validation.validatePromptName "my-prompt" = Validation.Passes
  /\ Validation.validatePromptName "folder/sub-folder/prompt" = Validation.Passes
  /\ Validation.validatePromptName "prompt_123" = Validation.Passes
  /\ Validation.validatePromptName "prompt.v2" = Validation.Passes
  /\ Validation.validatePromptName "" <> Validation.Passes
  /\ Validation.validatePromptName "prompt with spaces" <> Validation.Passes
  /\ Validation.validatePromptName "prompt@123" <> Validation.Passes.
Proof. split_and!; done. Qed.

Example test_labels :
  Validation.validateLabels ["production"; "staging"] = Validation.Passes
  /\ Validation.validateLabels ["v1"; "v2-beta"] = Validation.Passes
  /\ Validation.validateLabels ["latest"] <> Validation.Passes
  /\ Validation.validateLabels ["all"] <> Validation.Passes
  /\ Validation.validateLabels ["label with spaces"] <> Validation.Passes
  /\ Validation.validateLabels [""] <> Validation.Passes
  /\ Validation.validateLabels ["LATEST"]
     = Validation.Throws "labels"
         "Label 'LATEST' is reserved and cannot be used".
Proof. split_and!; done. Qed.

Example test_content :
  Validation.validatePromptContent "text" (Types.PString "Hello world")
    = Validation.Passes
  /\ Validation.validatePromptContent "chat"
       (Types.PArray [Types.mkMessage "system" "You are an assistant";
                      Types.mkMessage "user" "Hello"]) = Validation.Passes
  /\ Validation.validatePromptContent "text" (Types.PArray [])
     <> Validation.Passes
  /\ Validation.validatePromptContent "chat" (Types.PString "string")
     <> Validation.Passes
  /\ Validation.validatePromptContent "chat"
       (Types.PArray [Types.mkMessage "invalid" "test"]) <> Validation.Passes.
Proof. split_and!; done. Qed.

(** * The handler of the [get-prompt] tool *)

Section GetPromptHandler.
Import Types LangfuseAPIClient GetPromptTool.
Variable encodeURIComponent : string -> string.
Variable number_toString : JS.number -> string.
Variable stringify : GetPromptResult -> string.
Implicit Types (cl : LangfuseAPIClient.t) (input : GetPromptInput)
  (c : Cache.t PromptVersion) (w : world PromptVersion).

#[local] Abbreviation handler :=
  (getPromptHandler encodeURIComponent number_toString stringify).
#[local] Abbreviation key := (cacheKey number_toString).
#[local] Abbreviation get_prompt := (getPrompt encodeURIComponent number_toString).

Lemma get_hit {T : Type} (now : Z) (k : string) (cache : Cache.t T)
    (e : CacheEntry T) :
  Cache.cache cache !! Cache.fullKey cache k = Some e ->
  now <= expiresAt e ->
  Cache.get now k cache = (Some (data e), cache).
Proof.
  intros He Hlive. unfold Cache.get. rewrite He.
  by rewrite Z.gtb_ltb, (proj2 (Z.ltb_ge _ _)).
Qed.

Lemma get_miss_stays {T : Type} (now now' : Z) (k : string)
    (cache : Cache.t T) :
  (Cache.get now k cache).1 = None ->
  Cache.cache (Cache.get now k cache).2 !! Cache.fullKey cache k = None.
Proof.
  unfold Cache.get.
  destruct (Cache.cache cache !! Cache.fullKey cache k) as [e|] eqn:He;
    [|intros _; exact He].
  destruct (now >? expiresAt e); [|done].
  intros _. simpl. apply lookup_delete_eq.
Qed.

Lemma get_frame {T : Type} (now : Z) (k : string) (cache : Cache.t T) :
  Cache.defaultTTL (Cache.get now k cache).2 = Cache.defaultTTL cache
  /\ Cache.keyPrefix (Cache.get now k cache).2 = Cache.keyPrefix cache.
Proof.
  unfold Cache.get. destruct (Cache.cache cache !! _) as [e|]; [|done].
  by destruct (now >? expiresAt e).
Qed.

Lemma handler_hit cl input (now later : Z) c w (e : CacheEntry PromptVersion) :
  Cache.cache c !! Cache.fullKey c (key input) = Some e ->
  now <= expiresAt e ->
  handler cl input now later c w
  = (respond stringify input (data e) true, (c, w)).
Proof.
  intros He Hlive. unfold getPromptHandler.
  by rewrite (get_hit now _ _ e He Hlive).
Qed.

Lemma handler_miss cl input (now later : Z) c w :
  (Cache.get now (key input) c).1 = None ->
  handler cl input now later c w
  = match get_prompt cl (inputName input) (inputVersion input)
            (inputLabel input) w with
    | (Returned p, w1) =>
        (respond stringify input p false,
         (Cache.set later (key input) p None (Cache.get now (key input) c).2,
          w1))
    | (Threw e, w1) =>
        (failed e, ((Cache.get now (key input) c).2, w1))
    end.
Proof.
  intros Hmiss. unfold getPromptHandler.
  destruct (Cache.get now (key input) c) as [cached c1].
  simpl in Hmiss. subst cached.
  destruct (get_prompt cl _ _ _ w) as [[p|e] w1]; done.
Qed.

(** X18: when a call of the handler misses the cache and the client
    returns a prompt, the prompt is stored under the cache key, and every
    later call with the same cache key, up to [defaultTTL] seconds after
    the moment of storing, answers from the cache with that prompt
    ([cached: true]) without any network call: the cache and the world are
    left as the first call left them. *)
Theorem second_call_is_served_from_cache cl input input' (now later : Z)
    (now' later' : Z) c w (p : PromptVersion) (w1 : world PromptVersion) :
  (Cache.get now (key input) c).1 = None ->
  get_prompt cl (inputName input) (inputVersion input) (inputLabel input) w
    = (Returned p, w1) ->
  key input' = key input ->
  now' <= later + Cache.defaultTTL c * 1000 ->
  (handler cl input now later c w).1 = respond stringify input p false
  /\ (handler cl input now later c w).2.2 = w1
  /\ handler cl input' now' later' (handler cl input now later c w).2.1 w1
     = (respond stringify input' p true, (handler cl input now later c w).2).
Proof.
  intros Hmiss Hfetch Hkey Hlive.
  rewrite (handler_miss cl input now later c w Hmiss), Hfetch. cbn [fst snd].
  split_and!; [done..|].
  destruct (get_frame now (key input) c) as [Httl Hprefix].
  rewrite (handler_hit cl input' now' later' _ w1
             (mkEntry p (later + Cache.defaultTTL c * 1000))); [done| |done].
  rewrite Hkey.
  change (Cache.fullKey (Cache.set later (key input) p None _) (key input))
    with (Cache.fullKey (Cache.get now (key input) c).2 (key input)).
  rewrite set_lookup, lookup_insert_eq. simpl. by rewrite Httl.
Qed.

(** X19: when a call misses the cache and the client throws, the handler
    does not throw: it answers with [isError] and the text
    ["Error getting prompt: "] followed by the error's message; nothing
    is stored, so that the key is still absent afterwards, at any time. *)
Theorem failure_is_reported_and_not_cached cl input (now later now' : Z) c w
    (e : error PromptVersion) (w1 : world PromptVersion) :
  (Cache.get now (key input) c).1 = None ->
  get_prompt cl (inputName input) (inputVersion input) (inputLabel input) w
    = (Threw e, w1) ->
  (handler cl input now later c w).1
    = JS.Ok {| text := "Error getting prompt: " +:+ GetPromptTool.message e;
               isError := true |}
  /\ (handler cl input now later c w).2.2 = w1
  /\ (Cache.get now' (key input) (handler cl input now later c w).2.1).1
     = None.
Proof.
  intros Hmiss Hfetch.
  rewrite (handler_miss cl input now later c w Hmiss), Hfetch. cbn [fst snd].
  split_and!; [done..|].
  pose proof (get_miss_stays now now (key input) c Hmiss) as Habsent.
  destruct (get_frame now (key input) c) as [_ Hprefix].
  unfold Cache.get at 1. unfold Cache.fullKey at 1. rewrite Hprefix.
  unfold Cache.fullKey in Habsent. by rewrite Habsent.
Qed.

Lemma handler_miss_world cl input (now later : Z) c w :
  (Cache.get now (key input) c).1 = None ->
  (handler cl input now later c w).2.2
  = (get_prompt cl (inputName input) (inputVersion input) (inputLabel input)
       w).2.
Proof.
  intros Hmiss. rewrite (handler_miss cl input now later c w Hmiss).
  by destruct (get_prompt cl _ _ _ w) as [[p|e] w1].
Qed.

(** X20: a version that is [0] or [NaN] counts as no version for the
    cache key, but not for the client: such a call has the cache key of
    the call without version, so that it is answered from the cache with
    whatever is stored there as the latest version; only on a miss does it
    ask the server, and then for the path [/versions/<version>]. *)
Theorem falsy_version_shares_the_latest_cache_key cl (name : string)
    (v : JS.number) (label : option string)
    (args : option (gmap string string)) (now later : Z) c w :
  v = JS.Num 0 \/ v = JS.NaN ->
  let asked := {| inputName := name; inputVersion := Some v;
                  inputLabel := label; arguments := args |} in
  let latest := {| inputName := name; inputVersion := None;
                   inputLabel := label; arguments := args |} in
  key asked = key latest
  /\ (forall e, Cache.cache c !! Cache.fullKey c (key latest) = Some e ->
        now <= expiresAt e ->
        handler cl asked now later c w
        = (respond stringify asked (data e) true, (c, w)))
  /\ ((Cache.get now (key latest) c).1 = None ->
      exists k : nat,
        (handler cl asked now later c w).2.2
        = advanced w (k + 1)
            (retry_log cl "GET"
               ("/prompts/" +:+ encodeURIComponent name +:+ "/versions/"
                +:+ number_toString v) None 0 k
             ++ [fetch_event cl "GET"
                   ("/prompts/" +:+ encodeURIComponent name +:+ "/versions/"
                    +:+ number_toString v) None])).
Proof.
  intros Hv asked latest.
  assert (key asked = key latest) as Hkey by (by destruct Hv as [-> | ->]).
  split_and!; [done| |].
  - intros e He Hlive. apply handler_hit; [|done]. by rewrite Hkey.
  - intros Hmiss. rewrite <- Hkey in Hmiss.
    rewrite (handler_miss_world cl asked now later c w Hmiss).
    unfold getPrompt. simpl.
    destruct (request_log_shape cl "GET"
                ("/prompts/" +:+ encodeURIComponent name +:+ "/versions/"
                 +:+ number_toString v) None 0 w) as (k & _ & Hk).
    exists k. exact Hk.
Qed.

Lemma invalidated_name_keys_are_gone (name : string) c :
  Validation.validatePromptName name = Validation.Passes ->
  exists c',
    Cache.invalidatePattern (H := RegExp.Fragment.engine) name c = JS.Ok c'
    /\ Cache.keyPrefix c' = Cache.keyPrefix c
    /\ (forall k, RegExp.contains k name -> Cache.cache c' !! k = None).
Proof.
  intros [_ Hname]%validated_name_is_well_formed.
  destruct (invalidatePattern_compiled (H := RegExp.Fragment.engine) name
              (name_terms name) c (parse_name name Hname))
    as (c' & Hrun & Hlookup & _ & Hprefix).
  exists c'. split_and!; [done..|].
  intros k Hk. rewrite Hlookup. simpl. by rewrite search_name.
Qed.

(** X21: after [invalidatePattern(name)] with a name that
    [validatePromptName] accepts, which is what the handlers of the
    mutating tools run on the prompts cache, no call of the get-prompt
    handler for that name is answered from the cache, whatever version and
    label it asks for: the handler misses and makes at least one GET
    request. *)
Theorem invalidation_forces_the_next_get_to_fetch cl (name : string) c :
  Validation.validatePromptName name = Validation.Passes ->
  exists c',
    Cache.invalidatePattern (H := RegExp.Fragment.engine) name c = JS.Ok c'
    /\ forall input (now later : Z) w,
         inputName input = name ->
         (Cache.get now (key input) c').1 = None
         /\ exists (path : string) (k : nat),
              (handler cl input now later c' w).2.2
              = advanced w (k + 1)
                  (retry_log cl "GET" path None 0 k
                   ++ [fetch_event cl "GET" path None]).
Proof.
  intros Hvalid.
  destruct (invalidated_name_keys_are_gone name c Hvalid)
    as (c' & Hrun & Hprefix & Hgone).
  exists c'. split; [done|]. intros input now later w Hname.
  assert ((Cache.get now (key input) c').1 = None) as Hmiss.
  { unfold Cache.get. rewrite Hgone; [done|].
    exists (Cache.keyPrefix c'),
      (":" +:+ (if JSTruthy.of_number (inputVersion input)
                then number_toString (default JS.NaN (inputVersion input))
                else "latest")
       +:+ ":" +:+ JS.str_or (inputLabel input) "").
    unfold Cache.fullKey, cacheKey. by rewrite Hname. }
  split; [done|].
  rewrite (handler_miss_world cl input now later c' w Hmiss).
  unfold getPrompt.
  match goal with
  | |- context [request cl "GET" ?p None 0 w] =>
      destruct (request_log_shape cl "GET" p None 0 w) as (k & _ & Hk);
      exists p, k; exact Hk
  end.
Qed.

End GetPromptHandler.

(** * The configuration validator and the listing operation *)

Section ConfigFacts.
Import Validation ConfigValidation.

Lemma outside_false (x : option double) (lo hi : Z) :
  outside x lo hi = false <-> absent_NaN_or_within x lo hi.
Proof.
  destruct x as [[|negative|q]|]; simpl; try tauto.
  - destruct negative; simpl; split; done.
  - rewrite orb_false_iff, !negb_false_iff, !Qle_bool_iff. tauto.
Qed.

Lemma below_false (x : option double) (lo : Z) :
  below x lo = false <-> absent_NaN_or_at_least x lo.
Proof.
  destruct x as [[|negative|q]|]; simpl; try tauto.
  by rewrite negb_false_iff, Qle_bool_iff.
Qed.

(** X22: [validatePromptConfig] accepts a config exactly when each
    numeric field is absent, [NaN], or within its bounds: temperature in
    [0, 2], maxTokens at least 1 (plus infinity and fractions included),
    topP in [0, 1], both penalties in [-2, 2].  In particular [NaN] passes
    every range check. *)
Theorem validatePromptConfig_accepts_ranges_and_NaN (config : PromptConfig) :
  validatePromptConfig config = Passes <->
  absent_NaN_or_within (temperature config) 0 2
  /\ absent_NaN_or_at_least (maxTokens config) 1
  /\ absent_NaN_or_within (topP config) 0 1
  /\ absent_NaN_or_within (frequencyPenalty config) (-2) 2
  /\ absent_NaN_or_within (presencePenalty config) (-2) 2.
Proof.
  unfold validatePromptConfig.
  rewrite <- !outside_false, <- below_false.
  destruct (outside (temperature config) 0 2); [split; [done|by intros [? _]]|].
  destruct (below (maxTokens config) 1);
    [split; [done|by intros (_ & ? & _)]|].
  destruct (outside (topP config) 0 1);
    [split; [done|by intros (_ & _ & ? & _)]|].
  destruct (outside (frequencyPenalty config) (-2) 2);
    [split; [done|by intros (_ & _ & _ & ? & _)]|].
  destruct (outside (presencePenalty config) (-2) 2);
    [split; [done|by intros (_ & _ & _ & _ & ?)]|].
  done.
Qed.

End ConfigFacts.

Section ListFacts.
Import Types LangfuseAPIClient.
Context {Json : Type}.
Variable number_toString : JS.number -> string.
Variable form_urlencode : string -> string.

(** X23: [listPrompts] sends only the usable filters: an empty [name],
    [label] or [tag] and a [page] or [limit] that is [0] or [NaN] are
    dropped from the query like absent ones, and when no filter is usable
    the request is a GET of [/prompts] with no query string at all. *)
Theorem listPrompts_drops_falsy_filters (cl : LangfuseAPIClient.t)
    (name label tag : option string) (page limit : option JS.number)
    (w : world Json) :
  listPrompts number_toString form_urlencode cl name label tag page limit w
  = listPrompts number_toString form_urlencode cl
      (usable_string name) (usable_string label) (usable_string tag)
      (usable_number page) (usable_number limit) w
  /\ (usable_string name = None -> usable_string label = None ->
      usable_string tag = None -> usable_number page = None ->
      usable_number limit = None ->
      listPrompts number_toString form_urlencode cl name label tag page
        limit w
      = request cl "GET" "/prompts" None 0 w).
Proof.
  assert (forall x, JSTruthy.of_string (usable_string x) = JSTruthy.of_string x
                    /\ (JSTruthy.of_string x = true -> usable_string x = x))
    as Hs.
  { intros x. unfold usable_string.
    destruct (JSTruthy.of_string x) eqn:Hx; [by rewrite Hx|done]. }
  assert (forall x, JSTruthy.of_number (usable_number x) = JSTruthy.of_number x
                    /\ (JSTruthy.of_number x = true -> usable_number x = x))
    as Hn.
  { intros x. unfold usable_number.
    destruct (JSTruthy.of_number x) eqn:Hx; [by rewrite Hx|done]. }
  assert (forall x, usable_string x = None -> JSTruthy.of_string x = false)
    as Hsn.
  { intros x. unfold usable_string.
    destruct (JSTruthy.of_string x) eqn:Hx; [|done]. intros ->. done. }
  assert (forall x, usable_number x = None -> JSTruthy.of_number x = false)
    as Hnn.
  { intros x. unfold usable_number.
    destruct (JSTruthy.of_number x) eqn:Hx; [|done]. intros ->. done. }
  split.
  - unfold listPrompts, append_if.
    destruct (Hs name) as [-> Hname], (Hs label) as [-> Hlabel],
      (Hs tag) as [-> Htag], (Hn page) as [-> Hpage],
      (Hn limit) as [-> Hlimit].
    destruct (JSTruthy.of_string name); [rewrite Hname by done|];
    destruct (JSTruthy.of_string label); [rewrite Hlabel by done| |rewrite Hlabel by done|];
    destruct (JSTruthy.of_string tag); try rewrite Htag by done;
    destruct (JSTruthy.of_number page); try rewrite Hpage by done;
    destruct (JSTruthy.of_number limit); try rewrite Hlimit by done;
    reflexivity.
  - intros H1 H2 H3 H4 H5. unfold listPrompts, append_if.
    by rewrite (Hsn _ H1), (Hsn _ H2), (Hsn _ H3), (Hnn _ H4), (Hnn _ H5).
Qed.

End ListFacts.

(** * The further properties at sample inputs *)

Lemma delete_removes_exactly_its_key_witness :
  (Cache.delete "k" one_second_cache).1 = true.
Proof.
  apply (proj1 (delete_removes_exactly_its_key "k" one_second_cache)).
  by exists (Types.mkEntry "v" 1000).
Defined.

Lemma set_touches_only_its_key_witness :
  (Cache.get 500 "k" (Cache.set 400 "other" "x" None one_second_cache)).1
  = (Cache.get 500 "k" one_second_cache).1.
Proof.
  apply (proj1 (set_touches_only_its_key 400 500 "other" "k" "x" None
                  one_second_cache)).
  discriminate.
Defined.

Lemma cleanup_is_invisible_and_composes_witness :
  (Cache.get 2000 "k" (Cache.cleanup 1500 one_second_cache)).1
  = (Cache.get 2000 "k" one_second_cache).1.
Proof.
  apply (proj1 (cleanup_is_invisible_and_composes 1500 2000 one_second_cache)).
  lia.
Defined.

Lemma clearAll_empties_and_keeps_registrations_witness :
  exists c,
    CacheManager.heap (CacheManager.run two_caches CacheManager.new) !! 0%nat
      = Some c
    /\ CacheManager.heap
         (CacheManager.clearAll (CacheManager.run two_caches CacheManager.new))
         !! 0%nat
       = Some (Cache.with_cache c ∅)
    /\ CacheManager.getCache "prompts" None
         (CacheManager.clearAll (CacheManager.run two_caches CacheManager.new))
       = (Some 0%nat,
          CacheManager.clearAll (CacheManager.run two_caches CacheManager.new)).
Proof.
  apply (clearAll_empties_and_keeps_registrations two_caches "prompts" None
           0%nat).
  reflexivity.
Defined.

Lemma sweep_cleans_every_registered_cache_witness :
  exists c c',
    CacheManager.heap (CacheManager.run two_caches CacheManager.new) !! 0%nat
      = Some c
    /\ CacheManager.heap
         (CacheManager.sweep 400000
            (CacheManager.run two_caches CacheManager.new)) !! 0%nat
       = Some c'
    /\ (forall k, Cache.cache c' !! k = unexpired 400000 (Cache.cache c !! k))
    /\ Cache.defaultTTL c' = Cache.defaultTTL c
    /\ Cache.keyPrefix c' = Cache.keyPrefix c
    /\ CacheManager.caches
         (CacheManager.sweep 400000
            (CacheManager.run two_caches CacheManager.new))
       = CacheManager.caches (CacheManager.run two_caches CacheManager.new).
Proof.
  apply (sweep_cleans_every_registered_cache two_caches 400000 "prompts"
           0%nat).
  reflexivity.
Defined.


Lemma network_errors_are_retried_by_name_witness :
  LangfuseAPIClient.request sample_client "GET" "/prompts" None 0 unreachable
  = (LangfuseAPIClient.Threw (Types.Error "TypeError" "fetch failed"),
     advanced unreachable 1 [fetch_event sample_client "GET" "/prompts" None]).
Proof.
  apply (proj2 (proj2 (network_errors_are_retried_by_name sample_client
                         "GET" "/prompts" None unreachable))
           0%nat "TypeError" "fetch failed");
    [reflexivity|discriminate|discriminate].
Defined.

Lemma validatePromptName_accepts_well_formed_names_witness :
  Validation.validatePromptName "folder/sub-folder/prompt.v2"
  = Validation.Passes.
Proof.
  apply (proj1 (validatePromptName_accepts_well_formed_names
                  "folder/sub-folder/prompt.v2")).
  split; [by vm_compute|reflexivity].
Defined.

Lemma validateLabels_accepts_well_formed_labels_witness :
  Validation.validateTags ["production"; "v2-beta"] = Validation.Passes.
Proof.
  apply (proj2 (proj2 (validateLabels_accepts_well_formed_labels
                         ["production"; "v2-beta"]))).
  reflexivity.
Defined.

Lemma validated_content_reaches_the_network_witness :
  LangfuseAPIClient.createPrompt sample_client
    {| Types.name := "greeting"; Types.type := "text";
       Types.prompt := Types.PString "Hello"; Types.config := None;
       Types.labels := None; Types.tags := None;
       Types.commitMessage := None |} recovering
  = LangfuseAPIClient.request sample_client "POST" "/prompts"
      (Some (LangfuseAPIClient.CreateBody
               {| Types.name := "greeting"; Types.type := "text";
                  Types.prompt := Types.PString "Hello"; Types.config := None;
                  Types.labels := None; Types.tags := None;
                  Types.commitMessage := None |})) 0 recovering.
Proof.
  apply (proj1 (proj2 (validated_content_reaches_the_network sample_client _
                         recovering))).
  reflexivity.
Defined.

Lemma validated_name_invalidates_its_keys_witness :
  exists c',
    Cache.invalidatePattern (H := RegExp.Fragment.engine) "a.b" dotless_cache
      = JS.Ok c'
    /\ (forall k, RegExp.contains k "a.b" -> Cache.cache c' !! k = None)
    /\ (forall k e, Cache.cache c' !! k = Some e ->
          Cache.cache dotless_cache !! k = Some e)
    /\ ((forall l r, "a.b" <> l +:+ "." +:+ r) ->
        forall k, ~ RegExp.contains k "a.b" ->
          Cache.cache c' !! k = Cache.cache dotless_cache !! k).
Proof.
  apply (validated_name_invalidates_its_keys "a.b" dotless_cache).
  reflexivity.
Defined.

Lemma compile_depends_only_on_extracted_variables_witness :
  Template.compilePrompt (Types.PString "Hello {{name}}")
    (<["name" := "Alice"]> (<["unused" := "x"]> ∅))
  = Template.compilePrompt (Types.PString "Hello {{name}}")
      (<["name" := "Alice"]> ∅).
Proof.
  apply compile_depends_only_on_extracted_variables.
  intros x Hx. change (x ∈ ["name"]) in Hx.
  apply list_elem_of_singleton in Hx as ->. reflexivity.
Defined.

Lemma compile_keeps_unavailable_placeholders_witness :
  Template.compilePrompt (Types.PString "Hello {{ name }}")
    (<["other" := "x"]> ∅)
  = JS.Ok (Types.PString "Hello {{ name }}").
Proof.
  apply compile_keeps_unavailable_placeholders; [discriminate|].
  intros x Hx. change (x ∈ ["name"]) in Hx.
  apply list_elem_of_singleton in Hx as ->.
  split; [reflexivity|].
  apply (bool_decide_eq_false_1 ("name" ∈ Template.inherited)). reflexivity.
Defined.

Lemma extracted_variables_are_distinct_and_trimmed_witness :
  JSString.trim "name" = "name".
Proof.
  apply (proj2 (extracted_variables_are_distinct_and_trimmed
                  (Types.PString "Hello {{ name }}"))).
  change ("name" ∈ ["name"]). by left.
Defined.

Lemma second_call_is_served_from_cache_witness :
  let first :=
    GetPromptTool.getPromptHandler id print_number print_result sample_client
      (ask "greeting" None) 0 100 (Cache.new None) serving in
  GetPromptTool.getPromptHandler id print_number print_result sample_client
    (ask "greeting" None) 300100 300200 first.2.1
    (advanced serving 1
       [fetch_event sample_client "GET" "/prompts/greeting" None])
  = (JS.Ok {| GetPromptTool.text := "greeting (cached)";
              GetPromptTool.isError := false |}, first.2).
Proof.
  apply (second_call_is_served_from_cache id print_number print_result
           sample_client (ask "greeting" None) (ask "greeting" None)
           0 100 300100 300200 (Cache.new None) serving greeting
           (advanced serving 1
              [fetch_event sample_client "GET" "/prompts/greeting" None]));
    [reflexivity|reflexivity|reflexivity|simpl; lia].
Defined.

Lemma failure_is_reported_and_not_cached_witness :
  (GetPromptTool.getPromptHandler id print_number print_result sample_client
     (ask "nothing" None) 0 100 (Cache.new None) missing).1
  = JS.Ok {| GetPromptTool.text := "Error getting prompt: API request failed";
             GetPromptTool.isError := true |}.
Proof.
  apply (failure_is_reported_and_not_cached id print_number print_result
           sample_client (ask "nothing" None) 0 100 0 (Cache.new None) missing
           (Types.APIError 404 "API request failed" (Some (inr "Not Found")))
           (advanced missing 1
              [fetch_event sample_client "GET" "/prompts/nothing" None]));
    reflexivity.
Defined.

Lemma falsy_version_shares_the_latest_cache_key_witness :
  GetPromptTool.cacheKey print_number (ask "greeting" (Some (JS.Num 0)))
  = GetPromptTool.cacheKey print_number (ask "greeting" None).
Proof.
  apply (falsy_version_shares_the_latest_cache_key id print_number
           print_result sample_client "greeting" (JS.Num 0) None None 0 0
           (Cache.new None) serving).
  by left.
Defined.

Lemma invalidation_forces_the_next_get_to_fetch_witness :
  exists c',
    Cache.invalidatePattern (H := RegExp.Fragment.engine) "greeting"
      (Cache.set 0 "greeting:latest:" greeting None (Cache.new None))
    = JS.Ok c'
    /\ forall input (now later : Z) w,
         GetPromptTool.inputName input = "greeting" ->
         (Cache.get now (GetPromptTool.cacheKey print_number input) c').1
           = None
         /\ exists (path : string) (k : nat),
              (GetPromptTool.getPromptHandler id print_number print_result
                 sample_client input now later c' w).2.2
              = advanced w (k + 1)
                  (retry_log sample_client "GET" path None 0 k
                   ++ [fetch_event sample_client "GET" path None]).
Proof.
  apply (invalidation_forces_the_next_get_to_fetch id print_number
           print_result sample_client "greeting").
  reflexivity.
Defined.

Lemma validatePromptConfig_accepts_ranges_and_NaN_witness :
  ConfigValidation.validatePromptConfig
    {| ConfigValidation.model := Some "gpt-4";
       ConfigValidation.temperature := Some ConfigValidation.NaN;
       ConfigValidation.maxTokens :=
         Some (ConfigValidation.Finite (3 # 2));
       ConfigValidation.topP := Some (ConfigValidation.Finite (9 # 10));
       ConfigValidation.frequencyPenalty := None;
       ConfigValidation.presencePenalty := None;
       ConfigValidation.stopSequences := None |}
  = Validation.Passes.
Proof.
  apply (proj2 (validatePromptConfig_accepts_ranges_and_NaN _)).
  simpl. split_and!; try done; by vm_compute.
Defined.

Lemma listPrompts_drops_falsy_filters_witness :
  LangfuseAPIClient.listPrompts print_number id sample_client (Some "")
    None None (Some (JS.Num 0)) (Some JS.NaN) recovering
  = LangfuseAPIClient.request sample_client "GET" "/prompts" None 0 recovering.
Proof.
  apply (proj2 (listPrompts_drops_falsy_filters print_number id sample_client
                  (Some "") None None (Some (JS.Num 0)) (Some JS.NaN)
                  recovering)); reflexivity.
Defined.

(** * The configuration read from the environment *)

Section ConfigurationFacts.
Import Types LangfuseAPIClient.
Context {Json : Type}.
Variable base64 : string -> string.

(** X24: whenever [getConfig] returns a configuration, the constructor of
    the client accepts it, and the client's time-out and retry count are
    never [0]: a variable [LANGFUSE_REQUEST_TIMEOUT] or
    [LANGFUSE_MAX_RETRIES] that is missing, empty, or does not start with
    an integer (so that [parseInt] gives [NaN]) leaves the default, 30000
    or 3; the base URL is the variable's value, or the cloud endpoint when
    it is missing or empty. *)
Theorem environment_configuration_falls_back_to_defaults
    (env : gmap string string) (config : LangfuseConfig) :
  Main.getConfig env = inr config ->
  exists cl,
    new (Json := Json) base64 config = inr cl
    /\ requestTimeout cl <> 0 /\ maxRetries cl <> 0
    /\ (JS.parseInt (JS.str_or (env !! "LANGFUSE_REQUEST_TIMEOUT") "30000")
          = JS.NaN -> requestTimeout cl = 30000)
    /\ (JS.parseInt (JS.str_or (env !! "LANGFUSE_MAX_RETRIES") "3")
          = JS.NaN -> maxRetries cl = 3)
    /\ (JS.str_or (env !! "LANGFUSE_REQUEST_TIMEOUT") "30000" = "30000"
        -> requestTimeout cl = 30000)
    /\ (JS.str_or (env !! "LANGFUSE_MAX_RETRIES") "3" = "3"
        -> maxRetries cl = 3)
    /\ LangfuseAPIClient.baseUrl cl
       = JS.str_or (env !! "LANGFUSE_BASEURL") "https://cloud.langfuse.com".
Proof.
  unfold Main.getConfig.
  destruct (env !! "LANGFUSE_PUBLIC_KEY") as [[|c1 pk]|]; simpl; try done.
  destruct (env !! "LANGFUSE_SECRET_KEY") as [[|c2 sk]|]; simpl; try done.
  intros [= <-]. unfold new. simpl. eexists. split; [reflexivity|]. simpl.
  assert (forall n d, d <> 0 -> JS.num_or (Some n) d <> 0) as Hnz.
  { intros [|z] d Hd; simpl; [done|]. by destruct (Z.eqb_spec z 0). }
  split_and!.
  - by apply Hnz.
  - by apply Hnz.
  - by intros ->.
  - by intros ->.
  - by intros ->.
  - by intros ->.
  - by destruct (env !! "LANGFUSE_BASEURL") as [[|c3 url]|].
Qed.

End ConfigurationFacts.

Lemma environment_configuration_falls_back_to_defaults_witness :
  exists cl,
    LangfuseAPIClient.new (Json := string) id
      {| Types.publicKey := "pk"; Types.secretKey := "sk";
         Types.baseUrl := Some "https://cloud.langfuse.com";
         Types.requestTimeout := Some (JS.Num 30);
         Types.maxRetries := Some JS.NaN |} = inr cl
    /\ LangfuseAPIClient.requestTimeout cl = 30
    /\ LangfuseAPIClient.maxRetries cl = 3.
Proof.
  destruct (@environment_configuration_falls_back_to_defaults string id
              sample_env _ eq_refl)
    as (cl & Hnew & _ & _ & _ & Hretries & _).
  exists cl. split; [exact Hnew|]. split; [|by apply Hretries].
  injection Hnew as <-. reflexivity.
Defined.
